(** * EnterL2Client: session guard, facade delegation and event dispatch

    A shallow embedding of [python/enterl2/client.py].  The client owns two
    mutable fields, [_account] and [_event_callbacks]; everything else it
    touches is a collaborator (the provider, the wallet manager, the four
    services, the callbacks of its subscribers).  Collaborators are opaque:
    every call on one is recorded in a history together with what it
    answered, and the answer is supplied by an environment, so that any call
    may return or raise.  A callback is the subscriber's code: while it runs
    it may read the client and call the client's synchronous methods, which
    is how the list [emit] is walking can change under it.

    The [async] methods are run to completion one at a time, which is the
    single logical flow the client is written for; an [await] is the call it
    waits for. *)

From stdpp Require Import gmap strings list.
From Stdlib Require Import ZArith NArith Ascii.

Set Warnings "-register-all".

(** ** Python values *)

(** [eth_account.signers.local.LocalAccount], as far as the client looks at
    it: an object with an [address] attribute. *)
Module LocalAccount.
Record t : Type := Build { address : string; key : string }.
End LocalAccount.

(** The dynamically typed values that travel through the client's methods. *)
Inductive PyVal : Type :=
| PyNone
| PyBool (b : bool)
| PyInt (z : Z)
| PyStr (s : string)
| PyDecimal (coefficient exponent : Z)
| PyList (items : list PyVal)
| PyDict (items : list (string * PyVal))
| PyObj (id : nat) (truth : bool).

(** Python's truth value testing, as used by [x or y]. *)
Definition truthy (v : PyVal) : bool :=
  match v with
  | PyNone => false
  | PyBool b => b
  | PyInt z => negb (z =? 0)%Z
  | PyStr s => negb (String.eqb s "")
  | PyDecimal c _ => negb (c =? 0)%Z
  | PyList l => match l with [] => false | _ => true end
  | PyDict d => match d with [] => false | _ => true end
  | PyObj _ t => t
  end.

(** [x or y] *)
Definition py_or (x y : PyVal) : PyVal := if truthy x then x else y.

(** A parameter with a default: [None] is the argument left out. *)
Definition arg (given : option PyVal) (default : PyVal) : PyVal :=
  match given with Some v => v | None => default end.

(** ** Exceptions *)

(** [EnterL2Error] is the SDK's own error class (from [.types]).  The two
    handlers of the client are [except Exception], so what matters about any
    other exception is whether its class derives from [Exception]
    ([ValueError], the provider's [NetworkError], ...) or only from
    [BaseException] ([KeyboardInterrupt], [SystemExit],
    [asyncio.CancelledError]). *)
Inductive PyExn : Type :=
| EnterL2Error (msg : string)
| OtherException (cls msg : string)
| NonException (cls msg : string).

Definition is_Exception (e : PyExn) : bool :=
  match e with
  | EnterL2Error _ | OtherException _ _ => true
  | NonException _ _ => false
  end.

(** [str(e)] *)
Definition exn_str (e : PyExn) : string :=
  match e with
  | EnterL2Error msg | OtherException _ msg | NonException _ msg => msg
  end.

Inductive Outcome (A : Type) : Type :=
| Returned (a : A)
| Raised (e : PyExn).
Arguments Returned {A} a.
Arguments Raised {A} e.

(** ** Collaborators *)

Inductive WalletType : Type := CONSUMER | MERCHANT.

(** A subscriber callback, known by its identity. *)
Definition Callback : Type := nat.

(** One constructor per method the client calls on a collaborator. *)
Inductive Call : Type :=
| provider_set_account (account : option LocalAccount.t)
| provider_get_network_info
| provider_get_balance (address token_address : PyVal)
| provider_get_transaction (tx_hash : PyVal)
| provider_wait_for_transaction (tx_hash confirmations timeout : PyVal)
| provider_close
| wallet_create_wallet (wallet_type : WalletType) (options : option PyVal)
| payment_send_payment (request : PyVal)
| bridge_deposit (token_address amount recipient : PyVal)
| bridge_withdraw (token_address amount recipient : PyVal)
| naming_register_name (name resolver : PyVal)
| staking_stake (amount lock_period : PyVal)
| staking_unstake (amount : PyVal)
| staking_claim_rewards
| callback_call (callback : Callback) (data : PyVal).

(** What has happened outside the client so far. *)
Inductive Event : Type :=
| Called (c : Call) (answer : Outcome PyVal)
| Printed (line : string).

Definition History : Type := list Event.

(** ** The client's own state *)

Record Client : Type := {
  config : PyVal;
  _account : option LocalAccount.t;
  _event_callbacks : gmap string (list Callback);
}.

Definition set_account (a : option LocalAccount.t) (c : Client) : Client :=
  {| config := config c; _account := a; _event_callbacks := _event_callbacks c |}.

Definition set_event_callbacks (m : gmap string (list Callback)) (c : Client) : Client :=
  {| config := config c; _account := _account c; _event_callbacks := m |}.

(** ** Callbacks *)

(** The methods of the client that a callback can call and see finished
    while it runs: the synchronous ones.  (Calling [close] or another
    [async] method only makes a coroutine, which a callback, being
    synchronous, cannot await.)  None of them takes an event out of the
    registry or puts another list in the place of the one it has. *)
Inductive Reentry : Type :=
| re_on (event : string) (callback : Callback)
| re_off (event : string) (callback : Callback)
| re_connect (private_key : string)
| re_disconnect
| re_emit (event : string) (data : PyVal).

(** What a callback does once invoked: it returns or raises ([Finish]),
    after any number of looks at the client it closes over ([Look]: its
    [address], [is_connected], ...) and of calls back into it ([Reenter]),
    going on from what each call gave. *)
Inductive Script : Type :=
| Finish (outcome : Outcome PyVal)
| Look (k : Client -> Script)
| Reenter (r : Reentry) (k : Outcome unit -> Script).

(** The environment of a client.  [from_key] is [Account.from_key] of
    eth_account: the account of a well-formed key, or the message of the
    [ValueError] it raises on malformed key material.  [respond] is the
    behaviour of the provider, the wallet manager and the services: what a
    call answers after a given history (so a collaborator may keep state of
    its own, and any call may raise).  [subscriber] is the code of each
    callback, for the data it is given and what has happened so far.
    [print_raises] tells when the report [print(f"...{e}")] of [emit] itself
    raises (an exception whose text cannot be made, an output that cannot
    take the line), and what. *)
Record Env : Type := {
  from_key : string -> string + LocalAccount.t;
  respond : History -> Call -> Outcome PyVal;
  subscriber : Callback -> PyVal -> History -> Script;
  print_raises : History -> string -> option PyExn;
}.

(** ** Methods as state transformers

    A method runs from a client state and a history and ends by returning or
    raising; the fields it assigned and the calls it made before raising
    stay. *)
Definition M (A : Type) : Type := Client -> History -> Outcome A * Client * History.

Definition ret {A} (a : A) : M A := fun c h => (Returned a, c, h).

Definition raise {A} (e : PyExn) : M A := fun c h => (Raised e, c, h).

Definition bind {A B} (m : M A) (k : A -> M B) : M B :=
  fun c h =>
    match m c h with
    | (Returned a, c', h') => k a c' h'
    | (Raised e, c', h') => (Raised e, c', h')
    end.

Notation "'let!' x ':=' m 'in' k" := (bind m (fun x => k))
  (at level 10, x name, m at level 100, k at level 200).
Notation "m >> k" := (bind m (fun _ => k))
  (at level 90, right associativity).

(** [try: body  except Exception as e: handler e] *)
Definition try_except {A} (body : M A) (handler : PyExn -> M A) : M A :=
  fun c h =>
    match body c h with
    | (Returned a, c', h') => (Returned a, c', h')
    | (Raised e, c', h') =>
        if is_Exception e then handler e c' h' else (Raised e, c', h')
    end.

Definition get : M Client := fun c h => (Returned c, c, h).

Definition modify (f : Client -> Client) : M unit := fun c h => (Returned tt, f c, h).

(** A run that may not have ended within the steps it was given ([None]). *)
Definition Run (A : Type) : Type := Client -> History -> option (Outcome A * Client * History).

(** ** The client *)

(** [EnterL2Client(config)]: no account, no callbacks. *)
Definition EnterL2Client (config : PyVal) : Client :=
  {| config := config; _account := None; _event_callbacks := ∅ |}.

(** The [address] property. *)
Definition address (c : Client) : PyVal :=
  match _account c with
  | Some account => PyStr (LocalAccount.address account)
  | None => PyNone
  end.

(** The [is_connected] property. *)
Definition is_connected (c : Client) : bool :=
  match _account c with Some _ => true | None => false end.

(** The guard that opens every method needing a session:
    [if not self.is_connected: raise EnterL2Error("Client not connected")]. *)
Definition guard_connected : M unit :=
  let! self := get in
  if is_connected self then ret tt else raise (EnterL2Error "Client not connected").

(** *** Event registry

    [on] and [off] only touch the registry. *)

(** [list.remove(x)]: the list without its first item equal to [x]; [None]
    is the [ValueError] of a list that has no such item. *)
Fixpoint list_remove (x : Callback) (l : list Callback) : option (list Callback) :=
  match l with
  | [] => None
  | y :: l => if decide (y = x) then Some l else cons y <$> list_remove x l
  end.

(** What [try: callbacks.remove(callback)  except ValueError: pass] leaves. *)
Definition remove_callback (callback : Callback) (callbacks : list Callback) : list Callback :=
  match list_remove callback callbacks with
  | Some callbacks' => callbacks'
  | None => callbacks
  end.

Definition on (event : string) (callback : Callback) : M unit :=
  modify (fun self =>
    let registry := _event_callbacks self in
    let registry :=
      match registry !! event with
      | None => <[event := []]> registry
      | Some _ => registry
      end in
    set_event_callbacks (alter (fun l => l ++ [callback]) event registry) self).

Definition off (event : string) (callback : Callback) : M unit :=
  modify (fun self =>
    let registry := _event_callbacks self in
    match registry !! event with
    | Some _ => set_event_callbacks (alter (remove_callback callback) event registry) self
    | None => self
    end).

Section WithEnv.

Variable env : Env.

(** A call on a collaborator: it is recorded with its answer, and a raising
    answer is raised here. *)
Definition call (q : Call) : M PyVal :=
  fun c h => let r := respond env h q in (r, c, h ++ [Called q r]).

(** [Account.from_key(private_key)] *)
Definition Account_from_key (private_key : string) : M LocalAccount.t :=
  match from_key env private_key with
  | inl msg => raise (OtherException "ValueError" msg)
  | inr account => ret account
  end.

(** *** Session *)

Definition connect (private_key : string) : M unit :=
  try_except
    (let! account := Account_from_key private_key in
     modify (set_account (Some account)) >>
     call (provider_set_account (Some account)) >>
     ret tt)
    (fun e => raise (EnterL2Error ("Failed to connect: " +:+ exn_str e))).

Definition disconnect : M unit :=
  modify (set_account None) >>
  call (provider_set_account None) >>
  ret tt.

(** *** Queries *)

Definition get_network_info : M PyVal :=
  call provider_get_network_info.

Definition get_balance (token_address : option PyVal) : M PyVal :=
  let token_address := arg token_address PyNone in
  guard_connected >>
  let! self := get in
  call (provider_get_balance (address self) token_address).

Definition get_transaction (tx_hash : PyVal) : M PyVal :=
  call (provider_get_transaction tx_hash).

Definition wait_for_transaction (tx_hash : PyVal) (confirmations timeout : option PyVal) : M PyVal :=
  let confirmations := arg confirmations (PyInt 1) in
  let timeout := arg timeout (PyInt 60) in
  call (provider_wait_for_transaction tx_hash confirmations timeout).

(** *** Wallets *)

Definition create_consumer_wallet : M PyVal :=
  guard_connected >>
  call (wallet_create_wallet CONSUMER None).

Definition create_merchant_wallet (whitelist_enabled daily_limit : option PyVal) : M PyVal :=
  let whitelist_enabled := arg whitelist_enabled (PyBool false) in
  let daily_limit := arg daily_limit PyNone in
  guard_connected >>
  let options := PyDict [("whitelist_enabled", whitelist_enabled);
                         ("daily_limit", daily_limit)] in
  call (wallet_create_wallet MERCHANT (Some options)).

(** *** Payment, bridge, naming, staking *)

Definition send_payment (to amount : PyVal) (token_address description : option PyVal) : M PyVal :=
  let token_address := arg token_address PyNone in
  let description := arg description PyNone in
  guard_connected >>
  let request := PyDict [("to", to);
                         ("amount", amount);
                         ("token_address", token_address);
                         ("description", description)] in
  call (payment_send_payment request).

Definition deposit (token_address amount : PyVal) (l2_recipient : option PyVal) : M PyVal :=
  let l2_recipient := arg l2_recipient PyNone in
  guard_connected >>
  let! self := get in
  let recipient := py_or l2_recipient (address self) in
  call (bridge_deposit token_address amount recipient).

Definition withdraw (token_address amount : PyVal) (l1_recipient : option PyVal) : M PyVal :=
  let l1_recipient := arg l1_recipient PyNone in
  guard_connected >>
  let! self := get in
  let recipient := py_or l1_recipient (address self) in
  call (bridge_withdraw token_address amount recipient).

Definition register_name (name : PyVal) (resolver : option PyVal) : M PyVal :=
  let resolver := arg resolver PyNone in
  guard_connected >>
  call (naming_register_name name resolver).

Definition stake (amount : PyVal) (lock_period : option PyVal) : M PyVal :=
  let lock_period := arg lock_period (PyInt 0) in
  guard_connected >>
  call (staking_stake amount lock_period).

Definition unstake (amount : PyVal) : M PyVal :=
  guard_connected >>
  call (staking_unstake amount).

Definition claim_rewards : M PyVal :=
  guard_connected >>
  call staking_claim_rewards.

(** *** Event dispatch *)

(** [print(line)] *)
Definition print (line : string) : M unit :=
  fun c h =>
    match print_raises env h line with
    | Some e => (Raised e, c, h)
    | None => (Returned tt, c, h ++ [Printed line])
    end.

(** A call back into the client, [emit_] standing for its [emit]. *)
Definition reenter (emit_ : string -> PyVal -> Run unit) (r : Reentry) : Run unit :=
  match r with
  | re_on event callback => fun c h => Some (on event callback c h)
  | re_off event callback => fun c h => Some (off event callback c h)
  | re_connect private_key => fun c h => Some (connect private_key c h)
  | re_disconnect => fun c h => Some (disconnect c h)
  | re_emit event data => emit_ event data
  end.

Fixpoint run_script (emit_ : string -> PyVal -> Run unit) (s : Script) : Run PyVal :=
  fun c h =>
    match s with
    | Finish outcome => Some (outcome, c, h)
    | Look k => run_script emit_ (k c) c h
    | Reenter r k =>
        match reenter emit_ r c h with
        | Some (outcome, c', h') => run_script emit_ (k outcome) c' h'
        | None => None
        end
    end.

(** [callback(data)]: the callback runs on the client as it is now; once it
    has ended the call is recorded with what it gave. *)
Definition invoke (emit_ : string -> PyVal -> Run unit) (callback : Callback)
    (data : PyVal) : Run PyVal :=
  fun c h =>
    match run_script emit_ (subscriber env callback data h) c h with
    | Some (outcome, c', h') =>
        Some (outcome, c', h' ++ [Called (callback_call callback data) outcome])
    | None => None
    end.

(** [for callback in self._event_callbacks[event]], from position [i] on.
    The iterator holds the list object itself and a position in it: each
    turn takes the item at the position in the list as it is by then, which
    is the list the registry has for [event], since [on] and [off] change
    that very object.  The loop ends when the position is past the end.
    [fuel] bounds the invocations still to be made, those of nested [emit]s
    included; a run that would need more has no result here. *)
Fixpoint emit_from (fuel : nat) (event : string) (data : PyVal) (i : nat) : Run unit :=
  fun c h =>
    match _event_callbacks c !! event with
    | None => Some (Returned tt, c, h)
    | Some callbacks =>
        match callbacks !! i with
        | None => Some (Returned tt, c, h)
        | Some callback =>
            match fuel with
            | 0 => None
            | S fuel =>
                let emit_ : string -> PyVal -> Run unit :=
                  fun event' data' c' h' =>
                    match _event_callbacks c' !! event' with
                    | Some _ => emit_from fuel event' data' 0 c' h'
                    | None => Some (Returned tt, c', h')
                    end in
                match invoke emit_ callback data c h with
                | None => None
                | Some (Returned _, c1, h1) => emit_from fuel event data (S i) c1 h1
                | Some (Raised e, c1, h1) =>
                    if is_Exception e then
                      match print ("Error in event callback: " +:+ exn_str e) c1 h1 with
                      | (Returned _, c2, h2) => emit_from fuel event data (S i) c2 h2
                      | (Raised e', c2, h2) => Some (Raised e', c2, h2)
                      end
                    else Some (Raised e, c1, h1)
                end
            end
        end
    end.

Definition emit (fuel : nat) (event : string) (data : PyVal) : Run unit :=
  fun c h =>
    match _event_callbacks c !! event with
    | Some _ => emit_from fuel event data 0 c h
    | None => Some (Returned tt, c, h)
    end.

(** *** Closing *)

Definition close : M unit :=
  call provider_close >>
  modify (set_event_callbacks ∅).

(** [__aenter__] returns [self]. *)
Definition __aenter__ : M Client := get.

(** [__aexit__(exc_type, exc_val, exc_tb)]: the three arguments describe the
    exception that left the block, if any.  It returns [None]. *)
Definition __aexit__ (exc : option PyExn) : M PyVal :=
  close >> ret PyNone.

(** [async with client: suite], by the language's rule for the statement:
    [__aenter__], the suite, then [__aexit__] with the exception of the suite
    or with [None]s; the exception is raised again unless [__aexit__]
    answered a true value.  [None] is a suite whose exception was
    suppressed. *)
Definition async_with {A} (suite : M A) : M (option A) :=
  __aenter__ >>
  fun c h =>
    match suite c h with
    | (Returned a, c1, h1) =>
        match __aexit__ None c1 h1 with
        | (Returned _, c2, h2) => (Returned (Some a), c2, h2)
        | (Raised e', c2, h2) => (Raised e', c2, h2)
        end
    | (Raised e, c1, h1) =>
        match __aexit__ (Some e) c1 h1 with
        | (Returned suppress, c2, h2) =>
            if truthy suppress then (Returned None, c2, h2) else (Raised e, c2, h2)
        | (Raised e', c2, h2) => (Raised e', c2, h2)
        end
    end.

End WithEnv.

(** ** The operations that change chain state *)

Inductive Mutating : Type :=
| do_send_payment (to amount : PyVal) (token_address description : option PyVal)
| do_deposit (token_address amount : PyVal) (l2_recipient : option PyVal)
| do_withdraw (token_address amount : PyVal) (l1_recipient : option PyVal)
| do_register_name (name : PyVal) (resolver : option PyVal)
| do_stake (amount : PyVal) (lock_period : option PyVal)
| do_unstake (amount : PyVal)
| do_claim_rewards
| do_create_consumer_wallet
| do_create_merchant_wallet (whitelist_enabled daily_limit : option PyVal).

Definition run_mutating (env : Env) (op : Mutating) : M PyVal :=
  match op with
  | do_send_payment to amount token_address description =>
      send_payment env to amount token_address description
  | do_deposit token_address amount l2_recipient =>
      deposit env token_address amount l2_recipient
  | do_withdraw token_address amount l1_recipient =>
      withdraw env token_address amount l1_recipient
  | do_register_name name resolver => register_name env name resolver
  | do_stake amount lock_period => stake env amount lock_period
  | do_unstake amount => unstake env amount
  | do_claim_rewards => claim_rewards env
  | do_create_consumer_wallet => create_consumer_wallet env
  | do_create_merchant_wallet whitelist_enabled daily_limit =>
      create_merchant_wallet env whitelist_enabled daily_limit
  end.

(** ** Sequences of registrations *)

Inductive Registration : Type :=
| reg_on (event : string) (callback : Callback)
| reg_off (event : string) (callback : Callback).

(** The calls of a sequence, made one after the other on the client. *)
Fixpoint run_registrations (calls : list Registration) : M unit :=
  match calls with
  | [] => ret tt
  | reg_on event callback :: calls => on event callback >> run_registrations calls
  | reg_off event callback :: calls => off event callback >> run_registrations calls
  end.

(** The registry as the specification words it: [on] appends one entry,
    [off] removes the first matching occurrence and nothing otherwise. *)
Fixpoint spec_remove_first (callback : Callback) (entries : list Callback) : list Callback :=
  match entries with
  | [] => []
  | entry :: entries =>
      if decide (entry = callback) then entries
      else entry :: spec_remove_first callback entries
  end.

Definition spec_step (event : string) (entries : list Callback) (r : Registration) : list Callback :=
  match r with
  | reg_on event' callback =>
      if decide (event' = event) then entries ++ [callback] else entries
  | reg_off event' callback =>
      if decide (event' = event) then spec_remove_first callback entries else entries
  end.

Definition spec_registered_from (entries : list Callback) (calls : list Registration)
    (event : string) : list Callback :=
  foldl (spec_step event) entries calls.


(** The entries a registry holds for an event ([[]] when it has no list). *)
Definition entries_of (c : Client) (event : string) : list Callback :=
  default [] (_event_callbacks c !! event).

(** ** Reading a history *)

(** The callbacks invoked, with the data each was given, in the order in
    which the invocations ended (which, unless a callback calls [emit]
    itself, is the order in which they began). *)
Fixpoint invoked (h : History) : list (Callback * PyVal) :=
  match h with
  | [] => []
  | Called (callback_call callback data) _ :: h => (callback, data) :: invoked h
  | _ :: h => invoked h
  end.

(** The exceptions that callbacks raised, in order. *)
Fixpoint callback_errors (h : History) : list PyExn :=
  match h with
  | [] => []
  | Called (callback_call _ _) (Raised e) :: h => e :: callback_errors h
  | _ :: h => callback_errors h
  end.

(** The lines printed, in order. *)
Fixpoint printed (h : History) : list string :=
  match h with
  | [] => []
  | Printed line :: h => line :: printed h
  | _ :: h => printed h
  end.

(** The calls made on collaborators other than callbacks, in order. *)
Fixpoint delegated (h : History) : list Call :=
  match h with
  | [] => []
  | Called (callback_call _ _) _ :: h => delegated h
  | Called q _ :: h => q :: delegated h
  | Printed _ :: h => delegated h
  end.

(** A session is whole when the client holds an account and the last thing
    the provider was told, and accepted, is that same account. *)
Definition fully_connected (c : Client) (h : History) : Prop :=
  exists account answer,
    _account c = Some account /\
    last h = Some (Called (provider_set_account (Some account)) (Returned answer)).

(** ** Sample environments *)

Definition alice_key : string :=
  "0x4c0883a69102937d6231471b5dbb6204fe5129617082792ae468d01a3f362318".

Definition alice : LocalAccount.t :=
  LocalAccount.Build "0x2c7536E3605D9C16a7a3D7b1898e529396a65c23" alice_key.

(** One key is known; anything else is malformed. *)
Definition sample_from_key (private_key : string) : string + LocalAccount.t :=
  if String.eqb private_key alice_key then inr alice
  else inl "The private key must be exactly 32 bytes long".

(** A callback that returns [None] and does nothing else. *)
Definition returns_None : Callback -> PyVal -> History -> Script :=
  fun _ _ _ => Finish (Returned PyNone).

(** An output that takes every line. *)
Definition prints_all : History -> string -> option PyExn := fun _ _ => None.

(** Every collaborator answers; callbacks return [None]. *)
Definition calm : Env :=
  {| from_key := sample_from_key;
     respond := fun _ q =>
       match q with
       | payment_send_payment _ => Returned (PyStr "0xTXHASH")
       | _ => Returned PyNone
       end;
     subscriber := returns_None;
     print_raises := prints_all |}.

(** A provider that is out of reach: each of its methods raises. *)
Definition unreachable : Env :=
  {| from_key := sample_from_key;
     respond := fun _ q =>
       match q with
       | provider_set_account _ | provider_get_network_info
       | provider_get_balance _ _ | provider_get_transaction _
       | provider_wait_for_transaction _ _ _ | provider_close =>
           Raised (OtherException "NetworkError" "connection refused")
       | _ => Returned PyNone
       end;
     subscriber := returns_None;
     print_raises := prints_all |}.

(** Callback 1 raises [ValueError], callback 2 is interrupted from the
    keyboard, the others return. *)
Definition rowdy : Env :=
  {| from_key := sample_from_key;
     respond := fun _ _ => Returned PyNone;
     subscriber := fun callback _ _ =>
       match callback with
       | 1 => Finish (Raised (OtherException "ValueError" "boom"))
       | 2 => Finish (Raised (NonException "KeyboardInterrupt" ""))
       | _ => Finish (Returned PyNone)
       end;
     print_raises := prints_all |}.

(** Callbacks that unsubscribe themselves from "tx" when they are invoked:
    callback 4 then returns, callback 6 then raises [ValueError].  The
    others return. *)
Definition fidgety : Env :=
  {| from_key := sample_from_key;
     respond := fun _ _ => Returned PyNone;
     subscriber := fun callback _ _ =>
       match callback with
       | 4 => Reenter (re_off "tx" 4) (fun _ => Finish (Returned PyNone))
       | 6 => Reenter (re_off "tx" 6)
                (fun _ => Finish (Raised (OtherException "ValueError" "boom")))
       | _ => Finish (Returned PyNone)
       end;
     print_raises := prints_all |}.

(** Callback 8 registers callback 9 for "tx" when it is invoked, and
    returns.  The others return. *)
Definition eager : Env :=
  {| from_key := sample_from_key;
     respond := fun _ _ => Returned PyNone;
     subscriber := fun callback _ _ =>
       match callback with
       | 8 => Reenter (re_on "tx" 9) (fun _ => Finish (Returned PyNone))
       | _ => Finish (Returned PyNone)
       end;
     print_raises := prints_all |}.


(** Callback 1 raises [ValueError] and the output is closed: every [print]
    raises. *)
Definition mute : Env :=
  {| from_key := sample_from_key;
     respond := fun _ _ => Returned PyNone;
     subscriber := fun callback _ _ =>
       match callback with
       | 1 => Finish (Raised (OtherException "ValueError" "boom"))
       | _ => Finish (Returned PyNone)
       end;
     print_raises := fun _ _ =>
       Some (OtherException "ValueError" "I/O operation on closed file.") |}.

Definition connected_client : Client := set_account (Some alice) (EnterL2Client PyNone).

(** The three parts of a finished run. *)
Definition outcome_of {A} (r : Outcome A * Client * History) : Outcome A := r.1.1.
Definition client_after {A} (r : Outcome A * Client * History) : Client := r.1.2.
Definition history_after {A} (r : Outcome A * Client * History) : History := r.2.

(** A single delegated call whose answer, value or exception, is the
    method's own, with the client left as it was. *)
Definition delegates_once (r : Outcome PyVal * Client * History)
    (env : Env) (c : Client) (h : History) (q : Call) : Prop :=
  r = (respond env h q, c, h ++ [Called q (respond env h q)]).

(** The request [send_payment] builds. *)
Definition payment_request (to amount token_address description : PyVal) : PyVal :=
  PyDict [("to", to); ("amount", amount);
          ("token_address", token_address); ("description", description)].

(** The line [emit] prints for an exception it caught. *)
Definition error_line (e : PyExn) : string := "Error in event callback: " +:+ exn_str e.

(** What a run added to the history it started from. *)
Definition added {A} (h : History) (r : Outcome A * Client * History) : History :=
  drop (length h) (history_after r).

(** ** Statements about dispatch, connecting and closing *)

(** The class of an exception, by name. *)
Definition exn_class (e : PyExn) : string :=
  match e with
  | EnterL2Error _ => "EnterL2Error"
  | OtherException cls _ | NonException cls _ => cls
  end.

(** The run ended in an exception of a class of its own for the missing
    session, [NotConnectedError]. *)
Definition fails_with_NotConnectedError {A} (r : Outcome A * Client * History) : Prop :=
  exists e, outcome_of r = Raised e /\ exn_class e = "NotConnectedError".

(** A callback that is orderly in a dispatch of [event]: whenever it is
    invoked on [data] it ends, and by then it has left the list of [event]
    as it was, has had no callback invoked in turn and nothing printed; and
    if it raises, the exception derives from [Exception] and the line that
    reports it can be printed. *)
Definition orderly (env : Env) (event : string) (data : PyVal) (callback : Callback) : Prop :=
  forall fuel c h,
  exists outcome c' inner,
    run_script env (emit env fuel) (subscriber env callback data h) c h
    = Some (outcome, c', h ++ inner) /\
    _event_callbacks c' !! event = _event_callbacks c !! event /\
    invoked inner = [] /\
    printed inner = [] /\
    forall e, outcome = Raised e ->
      is_Exception e = true /\ forall h', print_raises env h' (error_line e) = None.




(** After [connect] the client is whole or as it was. *)
Definition connect_all_or_nothing (env : Env) (private_key : string)
    (c : Client) (h : History) : Prop :=
  let r := connect env private_key c h in
  fully_connected (client_after r) (history_after r) \/ client_after r = c.

(** The provider takes the account of this key (when the key has one). *)
Definition provider_accepts (env : Env) (private_key : string) (h : History) : Prop :=
  forall account,
    from_key env private_key = inr account ->
    exists answer, respond env h (provider_set_account (Some account)) = Returned answer.

(** [close] released the provider and left an empty registry. *)
Definition close_cleans_up (env : Env) (c : Client) (h : History) : Prop :=
  let r := close env c h in
  delegated (added h r) = [provider_close] /\
  _event_callbacks (client_after r) = ∅.

(** A client with one subscriber. *)
Definition subscribed_client : Client :=
  set_event_callbacks {[ "tx" := [3] ]} (EnterL2Client PyNone).

(** Callback 1, which raises [ValueError], registered ahead of callback 3. *)
Definition heckled_client : Client :=
  set_event_callbacks {[ "tx" := [1; 3] ]} (EnterL2Client PyNone).


(** Callback 4, which unsubscribes itself, registered ahead of 3 and 5. *)
Definition fidgety_client : Client :=
  set_event_callbacks {[ "tx" := [4; 3; 5] ]} (EnterL2Client PyNone).



(** Callback 8, which registers callback 9, alone on "tx". *)
Definition eager_client : Client :=
  set_event_callbacks {[ "tx" := [8] ]} (EnterL2Client PyNone).

Definition bob : LocalAccount.t :=
  LocalAccount.Build "0xB0B0000000000000000000000000000000000B0B" "0x0b".

(** A client in session as [bob], with one subscriber. *)
Definition bobs_client : Client := set_account (Some bob) subscribed_client.

(** ** Collaborators by name *)

Inductive Collaborator : Type :=
| the_provider | the_wallet | the_payment | the_bridge | the_naming | the_staking
| a_subscriber.

(** The object a call is made on: [self.provider], [self.wallet],
    [self.payment], [self.bridge], [self.naming], [self.staking], or a
    callback. *)
Definition target (q : Call) : Collaborator :=
  match q with
  | provider_set_account _ | provider_get_network_info | provider_get_balance _ _
  | provider_get_transaction _ | provider_wait_for_transaction _ _ _
  | provider_close => the_provider
  | wallet_create_wallet _ _ => the_wallet
  | payment_send_payment _ => the_payment
  | bridge_deposit _ _ _ | bridge_withdraw _ _ _ => the_bridge
  | naming_register_name _ _ => the_naming
  | staking_stake _ _ | staking_unstake _ | staking_claim_rewards => the_staking
  | callback_call _ _ => a_subscriber
  end.

(** The service each mutating method hands its work to. *)
Definition facade_of (op : Mutating) : Collaborator :=
  match op with
  | do_send_payment _ _ _ _ => the_payment
  | do_deposit _ _ _ | do_withdraw _ _ _ => the_bridge
  | do_register_name _ _ => the_naming
  | do_stake _ _ | do_unstake _ | do_claim_rewards => the_staking
  | do_create_consumer_wallet | do_create_merchant_wallet _ _ => the_wallet
  end.

(** The calls of a history with whom they were made on, callbacks included. *)
Fixpoint targets (h : History) : list Collaborator :=
  match h with
  | [] => []
  | Called q _ :: h => target q :: targets h
  | Printed _ :: h => targets h
  end.

(** The four read-only methods. *)
Inductive Query : Type :=
| ask_network_info
| ask_balance (token_address : option PyVal)
| ask_transaction (tx_hash : PyVal)
| ask_wait_for_transaction (tx_hash : PyVal) (confirmations timeout : option PyVal).

Definition run_query (env : Env) (q : Query) : M PyVal :=
  match q with
  | ask_network_info => get_network_info env
  | ask_balance token_address => get_balance env token_address
  | ask_transaction tx_hash => get_transaction env tx_hash
  | ask_wait_for_transaction tx_hash confirmations timeout =>
      wait_for_transaction env tx_hash confirmations timeout
  end.

(** The event a registration is about. *)
Definition event_of (r : Registration) : string :=
  match r with reg_on event _ | reg_off event _ => event end.

(** ** setup.py: the requirements list

    [requirements = [line.strip() for line in fh
                     if line.strip() and not line.startswith("#")]]

    A [str] is the list of its code points; the lines are those the file
    object yields. *)
Module setup_py.

Definition str : Type := list N.

(** The characters [str.strip()] takes for whitespace (the ones for which
    [str.isspace()] holds). *)
Definition isspace (ch : N) : bool :=
  ((9 <=? ch) && (ch <=? 13) ||
   (28 <=? ch) && (ch <=? 32) ||
   (ch =? 133) || (ch =? 160) || (ch =? 5760) ||
   (8192 <=? ch) && (ch <=? 8202) ||
   (ch =? 8232) || (ch =? 8233) || (ch =? 8239) || (ch =? 8287) ||
   (ch =? 12288))%N.

Fixpoint lstrip (s : str) : str :=
  match s with
  | ch :: s' => if isspace ch then lstrip s' else s
  | [] => []
  end.

Definition rstrip (s : str) : str := rev (lstrip (rev s)).

Definition strip (s : str) : str := rstrip (lstrip s).

Fixpoint startswith (s prefix : str) {struct prefix} : bool :=
  match prefix, s with
  | [], _ => true
  | p :: prefix, ch :: s => (ch =? p)%N && startswith s prefix
  | _ :: _, [] => false
  end.

(** ["#"] *)
Definition hash : str := [35%N].

(** The condition of the comprehension: [line.strip() and not
    line.startswith("#")], an empty [str] testing false. *)
Definition kept (line : str) : bool :=
  match strip line with
  | [] => false
  | _ :: _ => negb (startswith line hash)
  end.

Fixpoint requirements (fh : list str) : list str :=
  match fh with
  | [] => []
  | line :: fh => if kept line then strip line :: requirements fh else requirements fh
  end.

(** The [str] of an ASCII text. *)
Definition text (s : string) : str :=
  (fun a => N_of_ascii a) <$> String.list_ascii_of_string s.

(** The end of a line, as the file object leaves it on the line. *)
Definition newline : str := [10%N].

End setup_py.

(** A requirements file with a comment, a blank line, an indented comment
    and padded entries. *)
Definition sample_requirements : list setup_py.str :=
  [ setup_py.text "# Core dependencies" ++ setup_py.newline;
    setup_py.text "web3>=6.0.0" ++ setup_py.newline;
    setup_py.newline;
    setup_py.text "    # pinned for CI" ++ setup_py.newline;
    setup_py.text "  eth-account>=0.8.0  " ++ setup_py.newline ].

(** * Properties *)

(** ** The guard *)

Lemma added_app {A} (o : Outcome A) c h trace : added h (o, c, h ++ trace) = trace.
Proof. unfold added, history_after. cbn. apply drop_app_length. Qed.

Lemma guard_connected_refuses c h :
  is_connected c = false ->
  guard_connected c h = (Raised (EnterL2Error "Client not connected"), c, h).
Proof. intros Hoff. unfold guard_connected, bind, get. now rewrite Hoff. Qed.

Lemma guard_connected_passes c h :
  is_connected c = true -> guard_connected c h = (Returned tt, c, h).
Proof. intros Hon. unfold guard_connected, bind, get. now rewrite Hon. Qed.

Lemma guarded_refuses {A} (body : M A) c h :
  is_connected c = false ->
  (guard_connected >> body) c h = (Raised (EnterL2Error "Client not connected"), c, h).
Proof. intros Hoff. unfold bind. now rewrite guard_connected_refuses. Qed.

Lemma guarded_passes {A} (body : M A) c h :
  is_connected c = true -> (guard_connected >> body) c h = body c h.
Proof. intros Hon. unfold bind. now rewrite guard_connected_passes. Qed.

Lemma is_connected_account c :
  is_connected c = true -> exists account, _account c = Some account.
Proof. unfold is_connected. destruct (_account c); [eauto | discriminate]. Qed.

(** C1, as the code has it.  Each of the nine mutating operations, invoked
    while no session is active, raises [EnterL2Error("Client not connected")]
    before anything else: the client is untouched and the history gains no
    call at all.  The error is of the SDK's general class [EnterL2Error]. *)
Theorem mutating_without_session_fails_first (env : Env) (op : Mutating) c h :
  is_connected c = false ->
  run_mutating env op c h = (Raised (EnterL2Error "Client not connected"), c, h).
Proof.
  intros Hoff.
  destruct op; cbn [run_mutating];
    unfold send_payment, deposit, withdraw, register_name, stake, unstake,
      claim_rewards, create_consumer_wallet, create_merchant_wallet;
    cbv zeta; now apply guarded_refuses.
Qed.

Lemma mutating_without_session_fails_first_witness :
  is_connected (EnterL2Client PyNone) = false /\
  run_mutating unreachable (do_send_payment (PyStr "0xBEEF") (PyInt 10) None None)
    (EnterL2Client PyNone) []
  = (Raised (EnterL2Error "Client not connected"), EnterL2Client PyNone, []).
Proof.
  split; [reflexivity |].
  apply (mutating_without_session_fails_first unreachable
           (do_send_payment (PyStr "0xBEEF") (PyInt 10) None None)
           (EnterL2Client PyNone) []).
  reflexivity.
Defined.

(** C1 fails as stated: the error of a mutating operation without a session
    is not of a class [NotConnectedError].  Its class is [EnterL2Error], the
    class of the error [connect] raises on a malformed key, so the two
    failures cannot be told apart by type. *)
Lemma not_connected_error_has_no_class_of_its_own :
  is_connected (EnterL2Client PyNone) = false /\
  run_mutating calm do_claim_rewards (EnterL2Client PyNone) []
  = (Raised (EnterL2Error "Client not connected"), EnterL2Client PyNone, []) /\
  exn_class (EnterL2Error "Client not connected") = "EnterL2Error" /\
  (exists e,
     outcome_of (connect calm "not a key" (EnterL2Client PyNone) []) = Raised e /\
     exn_class e = exn_class (EnterL2Error "Client not connected")) /\
  ~ fails_with_NotConnectedError
      (run_mutating calm do_claim_rewards (EnterL2Client PyNone) []).
Proof.
  split; [reflexivity |]. split; [reflexivity |]. split; [reflexivity |]. split.
  - eexists. split; reflexivity.
  - intros (e & Hraised & Hclass). cbn in Hraised. injection Hraised as <-.
    discriminate.
Qed.

(** ** Disconnecting *)

Lemma disconnect_runs env c h :
  disconnect env c h
  = (match respond env h (provider_set_account None) with
     | Returned _ => Returned tt
     | Raised e => Raised e
     end,
     set_account None c,
     h ++ [Called (provider_set_account None) (respond env h (provider_set_account None))]).
Proof.
  unfold disconnect, bind, modify, call, ret. cbn.
  now destruct (respond env h (provider_set_account None)).
Qed.

(** C5. [disconnect] clears the account whatever the state and whatever
    the provider answers; a second [disconnect] leaves the client as the
    first left it; after either, [address] is [None] and [is_connected] is
    false.  Each of the two calls tells the provider [set_account(None)]. *)
Theorem disconnect_idempotent (env : Env) c h h' :
  let once := disconnect env c h in
  let twice := disconnect env (client_after once) h' in
  client_after once = set_account None c /\
  client_after twice = client_after once /\
  address (client_after once) = PyNone /\
  is_connected (client_after once) = false /\
  address (client_after twice) = PyNone /\
  is_connected (client_after twice) = false /\
  delegated (added h once) = [provider_set_account None] /\
  delegated (added h' twice) = [provider_set_account None].
Proof.
  cbv zeta. rewrite !disconnect_runs. unfold added, client_after, history_after. cbn.
  rewrite !drop_app_length. cbn. repeat split; reflexivity.
Qed.

(** ** Delegation *)

Lemma call_delegates_once env q c h : delegates_once (call env q c h) env c h q.
Proof. reflexivity. Qed.

(** C6. With a session, [send_payment(to, amount)] with [token_address] and
    [description] left out or given as [None] makes one call, to the payment
    service, with the request
    [{to: to, amount: amount, token_address: None, description: None}], and
    its answer is the method's answer; the client is unchanged. *)
Theorem send_payment_delegates_once (env : Env) (to amount : PyVal)
    (token_address description : option PyVal) c h :
  is_connected c = true ->
  arg token_address PyNone = PyNone ->
  arg description PyNone = PyNone ->
  delegates_once (send_payment env to amount token_address description c h) env c h
    (payment_send_payment (payment_request to amount PyNone PyNone)).
Proof.
  intros Hon Htoken Hdescr. unfold send_payment. cbv zeta.
  rewrite Htoken, Hdescr, guarded_passes by assumption.
  apply call_delegates_once.
Qed.

Lemma send_payment_delegates_once_witness :
  is_connected connected_client = true /\
  send_payment calm (PyStr "0xBEEF...") (PyInt 10) (Some PyNone) None connected_client []
  = (Returned (PyStr "0xTXHASH"), connected_client,
     [Called (payment_send_payment
                (PyDict [("to", PyStr "0xBEEF..."); ("amount", PyInt 10);
                         ("token_address", PyNone); ("description", PyNone)]))
             (Returned (PyStr "0xTXHASH"))]).
Proof.
  split; [reflexivity |].
  apply (send_payment_delegates_once calm (PyStr "0xBEEF...") (PyInt 10)
           (Some PyNone) None connected_client []); reflexivity.
Defined.

Lemma bridge_recipient env (recipient : option PyVal) (method : PyVal -> Call) c h :
  is_connected c = true ->
  (guard_connected >>
   let! self := get in
   call env (method (py_or (arg recipient PyNone) (address self)))) c h
  = call env (method (py_or (arg recipient PyNone) (address c))) c h.
Proof. intros Hon. rewrite guarded_passes by assumption. reflexivity. Qed.

(** C7. With a session, [deposit] and [withdraw] whose recipient is left out
    or [None] make one call to the bridge, with the session's address in the
    recipient's place, and the bridge's answer is the method's answer. *)
Theorem bridge_defaults_recipient (env : Env) (token_address amount : PyVal)
    (recipient : option PyVal) (account : LocalAccount.t) c h :
  _account c = Some account ->
  arg recipient PyNone = PyNone ->
  delegates_once (deposit env token_address amount recipient c h) env c h
    (bridge_deposit token_address amount (PyStr (LocalAccount.address account))) /\
  delegates_once (withdraw env token_address amount recipient c h) env c h
    (bridge_withdraw token_address amount (PyStr (LocalAccount.address account))).
Proof.
  intros Haccount Hnone.
  assert (Hon : is_connected c = true) by (unfold is_connected; now rewrite Haccount).
  unfold deposit, withdraw. cbv zeta.
  rewrite (bridge_recipient env recipient (bridge_deposit token_address amount)),
          (bridge_recipient env recipient (bridge_withdraw token_address amount))
    by assumption.
  rewrite Hnone. unfold py_or, address. cbn. rewrite Haccount.
  split; apply call_delegates_once.
Qed.

Lemma bridge_defaults_recipient_witness :
  _account connected_client = Some alice /\
  deposit calm (PyStr "0xT0KEN") (PyInt 5) None connected_client []
  = (Returned PyNone, connected_client,
     [Called (bridge_deposit (PyStr "0xT0KEN") (PyInt 5) (PyStr (LocalAccount.address alice)))
             (Returned PyNone)]) /\
  withdraw calm (PyStr "0xT0KEN") (PyInt 5) (Some PyNone) connected_client []
  = (Returned PyNone, connected_client,
     [Called (bridge_withdraw (PyStr "0xT0KEN") (PyInt 5) (PyStr (LocalAccount.address alice)))
             (Returned PyNone)]).
Proof.
  split; [reflexivity |]. split.
  - apply (bridge_defaults_recipient calm (PyStr "0xT0KEN") (PyInt 5) None alice
             connected_client []); reflexivity.
  - apply (bridge_defaults_recipient calm (PyStr "0xT0KEN") (PyInt 5) (Some PyNone) alice
             connected_client []); reflexivity.
Defined.

(** C9. With a session, [deposit] and [withdraw] put the session's address in
    the recipient's place for every recipient that tests false, the empty
    string among them: the bridge never sees such a recipient. *)
Theorem bridge_replaces_falsy_recipient (env : Env) (token_address amount recipient : PyVal)
    (account : LocalAccount.t) c h :
  _account c = Some account ->
  truthy recipient = false ->
  truthy (PyStr "") = false /\
  delegates_once (deposit env token_address amount (Some recipient) c h) env c h
    (bridge_deposit token_address amount (PyStr (LocalAccount.address account))) /\
  delegates_once (withdraw env token_address amount (Some recipient) c h) env c h
    (bridge_withdraw token_address amount (PyStr (LocalAccount.address account))).
Proof.
  intros Haccount Hfalsy.
  assert (Hon : is_connected c = true) by (unfold is_connected; now rewrite Haccount).
  split; [reflexivity |].
  unfold deposit, withdraw. cbv zeta.
  rewrite (bridge_recipient env (Some recipient) (bridge_deposit token_address amount)),
          (bridge_recipient env (Some recipient) (bridge_withdraw token_address amount))
    by assumption.
  unfold py_or, address. cbn [arg]. rewrite Hfalsy, Haccount.
  split; apply call_delegates_once.
Qed.

Lemma bridge_replaces_falsy_recipient_witness :
  _account connected_client = Some alice /\
  truthy (PyStr "") = false /\
  deposit calm (PyStr "0xT0KEN") (PyInt 5) (Some (PyStr "")) connected_client []
  = (Returned PyNone, connected_client,
     [Called (bridge_deposit (PyStr "0xT0KEN") (PyInt 5) (PyStr (LocalAccount.address alice)))
             (Returned PyNone)]) /\
  withdraw calm (PyStr "0xT0KEN") (PyInt 5) (Some (PyStr "")) connected_client []
  = (Returned PyNone, connected_client,
     [Called (bridge_withdraw (PyStr "0xT0KEN") (PyInt 5) (PyStr (LocalAccount.address alice)))
             (Returned PyNone)]).
Proof.
  split; [reflexivity |]. split; [reflexivity |].
  apply (bridge_replaces_falsy_recipient calm (PyStr "0xT0KEN") (PyInt 5) (PyStr "") alice
           connected_client []); reflexivity.
Defined.

(** A recipient that tests true goes to the bridge as given. *)
Lemma bridge_keeps_truthy_recipient env token_address amount recipient c h :
  is_connected c = true ->
  truthy recipient = true ->
  delegates_once (deposit env token_address amount (Some recipient) c h) env c h
    (bridge_deposit token_address amount recipient) /\
  delegates_once (withdraw env token_address amount (Some recipient) c h) env c h
    (bridge_withdraw token_address amount recipient).
Proof.
  intros Hon Htruthy. unfold deposit, withdraw. cbv zeta.
  rewrite (bridge_recipient env (Some recipient) (bridge_deposit token_address amount)),
          (bridge_recipient env (Some recipient) (bridge_withdraw token_address amount))
    by assumption.
  unfold py_or. cbn [arg]. rewrite Htruthy.
  split; apply call_delegates_once.
Qed.

(** ** Queries *)

(** C10. [get_network_info], [get_transaction] and [wait_for_transaction]
    have no guard: on a client without a session each makes its one call to
    the provider and hands back the answer.  [get_balance] alone is guarded:
    without a session it raises the not-connected error and calls nothing. *)
Theorem queries_without_session (env : Env) (tx_hash : PyVal)
    (confirmations timeout token_address : option PyVal) c h :
  is_connected c = false ->
  delegates_once (get_network_info env c h) env c h provider_get_network_info /\
  delegates_once (get_transaction env tx_hash c h) env c h
    (provider_get_transaction tx_hash) /\
  delegates_once (wait_for_transaction env tx_hash confirmations timeout c h) env c h
    (provider_wait_for_transaction tx_hash
       (arg confirmations (PyInt 1)) (arg timeout (PyInt 60))) /\
  get_balance env token_address c h
  = (Raised (EnterL2Error "Client not connected"), c, h).
Proof.
  intros Hoff. repeat split.
  unfold get_balance. cbv zeta. now apply guarded_refuses.
Qed.

Lemma queries_without_session_witness :
  is_connected (EnterL2Client PyNone) = false /\
  get_network_info calm (EnterL2Client PyNone) []
  = (Returned PyNone, EnterL2Client PyNone,
     [Called provider_get_network_info (Returned PyNone)]) /\
  get_balance calm None (EnterL2Client PyNone) []
  = (Raised (EnterL2Error "Client not connected"), EnterL2Client PyNone, []).
Proof.
  split; [reflexivity |].
  pose proof (queries_without_session calm (PyStr "0xTX") None None None
                (EnterL2Client PyNone) [] eq_refl) as (Hinfo & _ & _ & Hbalance).
  split; [exact Hinfo | exact Hbalance].
Defined.

(** With a session, [get_balance] asks the provider for the balance of the
    session's address. *)
Lemma get_balance_with_session env token_address c h :
  is_connected c = true ->
  delegates_once (get_balance env token_address c h) env c h
    (provider_get_balance (address c) (arg token_address PyNone)).
Proof.
  intros Hon. unfold get_balance. cbv zeta.
  rewrite guarded_passes by assumption. reflexivity.
Qed.

(** ** Connecting *)

Lemma connect_malformed env private_key msg c h :
  from_key env private_key = inl msg ->
  connect env private_key c h
  = (Raised (EnterL2Error ("Failed to connect: " +:+ msg)), c, h).
Proof.
  intros Hkey. unfold connect, try_except, bind, Account_from_key.
  rewrite Hkey. reflexivity.
Qed.

Lemma connect_accepted env private_key account answer c h :
  from_key env private_key = inr account ->
  respond env h (provider_set_account (Some account)) = Returned answer ->
  connect env private_key c h
  = (Returned tt, set_account (Some account) c,
     h ++ [Called (provider_set_account (Some account)) (Returned answer)]).
Proof.
  intros Hkey Hprovider.
  unfold connect, try_except, bind, Account_from_key, modify, call, ret.
  rewrite Hkey. cbn. rewrite Hprovider. reflexivity.
Qed.

(** C4, as the code has it.  On malformed key material [connect] raises
    [EnterL2Error("Failed to connect: ...")] around the parse failure and
    leaves client and provider alone, so [is_connected] stays false if it
    was false.  Whenever the provider takes the account, the client ends
    whole (the account bound to client and provider) or exactly as it
    was. *)
Theorem connect_whole_or_untouched (env : Env) (private_key : string) c h :
  provider_accepts env private_key h ->
  connect_all_or_nothing env private_key c h /\
  (forall msg,
     from_key env private_key = inl msg ->
     connect env private_key c h
     = (Raised (EnterL2Error ("Failed to connect: " +:+ msg)), c, h) /\
     is_connected (client_after (connect env private_key c h)) = is_connected c).
Proof.
  intros Haccepts. split.
  - unfold connect_all_or_nothing. cbv zeta.
    destruct (from_key env private_key) as [msg | account] eqn:Hkey.
    + right. now rewrite (connect_malformed env private_key msg).
    + left. destruct (Haccepts account Hkey) as [answer Hanswer].
      rewrite (connect_accepted env private_key account answer) by assumption.
      exists account, answer. split; [reflexivity |].
      unfold history_after. cbn. apply last_snoc.
  - intros msg Hkey. now rewrite (connect_malformed env private_key msg).
Qed.

Lemma connect_whole_or_untouched_witness :
  provider_accepts calm "not a key" [] /\
  connect calm "not a key" (EnterL2Client PyNone) []
  = (Raised (EnterL2Error
       "Failed to connect: The private key must be exactly 32 bytes long"),
     EnterL2Client PyNone, []) /\
  provider_accepts calm alice_key [] /\
  connect_all_or_nothing calm alice_key (EnterL2Client PyNone) [].
Proof.
  assert (Hbad : provider_accepts calm "not a key" []) by (intros account; discriminate).
  assert (Hgood : provider_accepts calm alice_key []) by (intros account _; now exists PyNone).
  split; [exact Hbad |]. split.
  - apply (connect_whole_or_untouched calm "not a key" (EnterL2Client PyNone) [] Hbad).
    reflexivity.
  - split; [exact Hgood |].
    apply (connect_whole_or_untouched calm alice_key (EnterL2Client PyNone) [] Hgood).
Defined.

(** C4 fails as stated: with a well-formed key and a provider whose
    [set_account] raises, [connect] raises and yet the client has taken the
    account, so it is neither whole nor as it was, and [is_connected] has
    turned true. *)
Lemma connect_leaves_half_session :
  connect unreachable alice_key (EnterL2Client PyNone) []
  = (Raised (EnterL2Error "Failed to connect: connection refused"),
     set_account (Some alice) (EnterL2Client PyNone),
     [Called (provider_set_account (Some alice))
             (Raised (OtherException "NetworkError" "connection refused"))]) /\
  is_connected (EnterL2Client PyNone) = false /\
  is_connected (client_after (connect unreachable alice_key (EnterL2Client PyNone) [])) = true /\
  ~ connect_all_or_nothing unreachable alice_key (EnterL2Client PyNone) [].
Proof.
  split; [reflexivity |]. split; [reflexivity |]. split; [reflexivity |].
  intros [(account & answer & _ & Hlast) | Hsame].
  - cbn in Hlast. discriminate.
  - apply (f_equal _account) in Hsame. cbn in Hsame. discriminate.
Qed.

(** ** Closing *)

Lemma close_runs env c h :
  close env c h
  = match respond env h provider_close with
    | Returned _ => (Returned tt, set_event_callbacks ∅ c,
                     h ++ [Called provider_close (respond env h provider_close)])
    | Raised e => (Raised e, c,
                   h ++ [Called provider_close (respond env h provider_close)])
    end.
Proof.
  unfold close, bind, call, modify.
  now destruct (respond env h provider_close).
Qed.

Lemma aexit_is_close env exc c h :
  __aexit__ env exc c h
  = match close env c h with
    | (Returned _, c', h') => (Returned PyNone, c', h')
    | (Raised e, c', h') => (Raised e, c', h')
    end.
Proof.
  unfold __aexit__, bind, ret.
  now destruct (close env c h) as [[[[] | e] c'] h'].
Qed.

(** C8, as the code has it.  [close] first releases the provider.  When
    that returns, [close] clears the registry and returns; when that raises,
    the exception leaves [close] and the registry is left as it was.
    [__aenter__] returns the client itself; [__aexit__] is [close] whatever
    exception it is told of, and answers [None] when [close] returns; so a
    block under [async with] is always followed by exactly one [close],
    whether the block returned or raised and whether [close] then returns or
    raises, and an exception of the block is raised again unless [close]
    raises one, which is then raised in its place. *)
Theorem close_clears_after_release (env : Env) c h :
  close env c h
  = match respond env h provider_close with
    | Returned _ =>
        (Returned tt, set_event_callbacks ∅ c,
         h ++ [Called provider_close (respond env h provider_close)])
    | Raised e =>
        (Raised e, c, h ++ [Called provider_close (respond env h provider_close)])
    end /\
  ((exists answer, respond env h provider_close = Returned answer) ->
   close_cleans_up env c h) /\
  (forall e, respond env h provider_close = Raised e ->
     outcome_of (close env c h) = Raised e /\
     client_after (close env c h) = c /\
     delegated (added h (close env c h)) = [provider_close]) /\
  __aenter__ c h = (Returned c, c, h) /\
  (forall exc,
     outcome_of (__aexit__ env exc c h)
     = match outcome_of (close env c h) with
       | Returned _ => Returned PyNone
       | Raised e => Raised e
       end /\
     client_after (__aexit__ env exc c h) = client_after (close env c h) /\
     history_after (__aexit__ env exc c h) = history_after (close env c h)) /\
  (forall (A : Type) (suite : M A),
     let block := suite c h in
     let closing := close env (client_after block) (history_after block) in
     client_after (async_with env suite c h) = client_after closing /\
     history_after (async_with env suite c h) = history_after closing /\
     (forall e, outcome_of block = Raised e ->
        outcome_of closing = Returned tt ->
        outcome_of (async_with env suite c h) = Raised e) /\
     (forall e', outcome_of closing = Raised e' ->
        outcome_of (async_with env suite c h) = Raised e')).
Proof.
  split; [apply close_runs |]. split; [| split; [| split; [reflexivity |]; split]].
  - intros [answer Hanswer]. unfold close_cleans_up, added. cbv zeta.
    rewrite close_runs, Hanswer. unfold history_after, client_after. cbn.
    rewrite drop_app_length. split; reflexivity.
  - intros e Hraises. rewrite close_runs, Hraises, added_app. repeat split.
  - intros exc. rewrite aexit_is_close.
    now destruct (close env c h) as [[[[] | e] c'] h'].
  - intros A suite. cbv zeta.
    unfold async_with, bind, __aenter__, get.
    destruct (suite c h) as [[[a | e] c1] h1];
      unfold client_after, history_after, outcome_of; cbn [fst snd];
      rewrite aexit_is_close;
      destruct (close env c1 h1) as [[[[] | e'] c2] h2]; cbn;
      repeat split; congruence.
Qed.

Lemma close_clears_after_release_witness :
  (exists answer, respond calm [] provider_close = Returned answer) /\
  close calm subscribed_client []
  = (Returned tt, EnterL2Client PyNone, [Called provider_close (Returned PyNone)]) /\
  close_cleans_up calm subscribed_client [] /\
  respond unreachable [] provider_close
  = Raised (OtherException "NetworkError" "connection refused") /\
  client_after (close unreachable subscribed_client []) = subscribed_client.
Proof.
  assert (Hreturns : exists answer, respond calm [] provider_close = Returned answer)
    by now exists PyNone.
  split; [exact Hreturns |].
  split; [exact (proj1 (close_clears_after_release calm subscribed_client [])) |].
  split; [exact (proj1 (proj2 (close_clears_after_release calm subscribed_client []))
                   Hreturns) |].
  split; [reflexivity |].
  apply (proj1 (proj2 (proj2 (close_clears_after_release unreachable subscribed_client [])))
           (OtherException "NetworkError" "connection refused") eq_refl).
Defined.

(** C8 fails as stated: when the provider's [close] raises, [close] stops
    there and the subscriber is still in the registry. *)
Lemma close_keeps_registry_when_release_fails :
  close unreachable subscribed_client []
  = (Raised (OtherException "NetworkError" "connection refused"),
     subscribed_client,
     [Called provider_close
        (Raised (OtherException "NetworkError" "connection refused"))]) /\
  _event_callbacks subscribed_client !! "tx" = Some [3] /\
  ~ close_cleans_up unreachable subscribed_client [].
Proof.
  split; [reflexivity |]. split; [reflexivity |].
  intros [_ Hempty].
  apply (f_equal (fun m => m !! "tx")) in Hempty.
  vm_compute in Hempty. discriminate.
Qed.

(** ** The registry *)

Lemma remove_callback_first callback entries :
  remove_callback callback entries = spec_remove_first callback entries.
Proof.
  unfold remove_callback.
  induction entries as [| entry entries IH]; cbn; [reflexivity |].
  case_decide; [reflexivity |].
  destruct (list_remove callback entries); cbn in *; congruence.
Qed.

Lemma on_appends event' callback event c h :
  exists c',
    on event' callback c h = (Returned tt, c', h) /\
    _account c' = _account c /\
    entries_of c' event = spec_step event (entries_of c event) (reg_on event' callback).
Proof.
  unfold on, modify. eexists. split; [reflexivity |]. split; [reflexivity |].
  unfold entries_of. cbn. destruct (decide (event' = event)) as [-> | Hother].
  - rewrite lookup_alter_eq.
    destruct (_event_callbacks c !! event) as [entries |] eqn:Hentries.
    + now rewrite Hentries.
    + now rewrite lookup_insert_eq.
  - rewrite lookup_alter_ne by assumption.
    destruct (_event_callbacks c !! event'); [reflexivity |].
    now rewrite lookup_insert_ne.
Qed.

Lemma off_removes_first event' callback event c h :
  exists c',
    off event' callback c h = (Returned tt, c', h) /\
    _account c' = _account c /\
    entries_of c' event = spec_step event (entries_of c event) (reg_off event' callback).
Proof.
  unfold off, modify. eexists. split; [reflexivity |].
  unfold entries_of. cbn.
  destruct (_event_callbacks c !! event') as [entries' |] eqn:Hentries'; cbn.
  - split; [reflexivity |]. destruct (decide (event' = event)) as [-> | Hother].
    + rewrite lookup_alter_eq, Hentries'. cbn. apply remove_callback_first.
    + now rewrite lookup_alter_ne.
  - split; [reflexivity |]. destruct (decide (event' = event)) as [-> | Hother].
    + now rewrite Hentries'.
    + reflexivity.
Qed.

Lemma run_registrations_entries calls : forall c h,
  exists c',
    run_registrations calls c h = (Returned tt, c', h) /\
    _account c' = _account c /\
    forall event, entries_of c' event = spec_registered_from (entries_of c event) calls event.
Proof.
  induction calls as [| [event' callback | event' callback] calls IH]; intros c h.
  - exists c. repeat split.
  - cbn [run_registrations]. unfold bind.
    destruct (on_appends event' callback event' c h) as (c1 & Hrun & Hacc & _).
    rewrite Hrun. destruct (IH c1 h) as (c2 & Hrest & Hacc2 & Hentries).
    exists c2. split; [exact Hrest |]. split; [congruence |].
    intros event. rewrite Hentries.
    destruct (on_appends event' callback event c h) as (c1' & Hrun' & _ & Hstep).
    assert (c1' = c1) as -> by congruence. now rewrite Hstep.
  - cbn [run_registrations]. unfold bind.
    destruct (off_removes_first event' callback event' c h) as (c1 & Hrun & Hacc & _).
    rewrite Hrun. destruct (IH c1 h) as (c2 & Hrest & Hacc2 & Hentries).
    exists c2. split; [exact Hrest |]. split; [congruence |].
    intros event. rewrite Hentries.
    destruct (off_removes_first event' callback event c h) as (c1' & Hrun' & _ & Hstep).
    assert (c1' = c1) as -> by congruence. now rewrite Hstep.
Qed.

(** ** Dispatch *)

Lemma invoked_app h1 h2 : invoked (h1 ++ h2) = invoked h1 ++ invoked h2.
Proof.
  induction h1 as [| event h1 IH]; [reflexivity |].
  destruct event as [q answer | line]; [destruct q |]; cbn; now rewrite ?IH.
Qed.

Lemma printed_app h1 h2 : printed (h1 ++ h2) = printed h1 ++ printed h2.
Proof.
  induction h1 as [| event h1 IH]; [reflexivity |].
  destruct event as [q answer | line]; cbn; now rewrite ?IH.
Qed.

Lemma callback_errors_app h1 h2 :
  callback_errors (h1 ++ h2) = callback_errors h1 ++ callback_errors h2.
Proof.
  induction h1 as [| event h1 IH]; [reflexivity |].
  destruct event as [q answer | line]; [destruct q, answer |]; cbn; now rewrite ?IH.
Qed.

Lemma delegated_app h1 h2 : delegated (h1 ++ h2) = delegated h1 ++ delegated h2.
Proof.
  induction h1 as [| event h1 IH]; [reflexivity |].
  destruct event as [q answer | line]; [destruct q |]; cbn; now rewrite ?IH.
Qed.

Lemma invoked_none_errors h : invoked h = [] -> callback_errors h = [].
Proof.
  induction h as [| event h IH]; [reflexivity |].
  destruct event as [q answer | line]; [destruct q |]; cbn; try exact IH.
  discriminate.
Qed.

(** The turn of the loop at a position that holds a callback. *)
Lemma emit_from_turn env fuel event data i callbacks callback c h :
  _event_callbacks c !! event = Some callbacks ->
  callbacks !! i = Some callback ->
  emit_from env (S fuel) event data i c h
  = match invoke env (emit env fuel) callback data c h with
    | None => None
    | Some (Returned _, c1, h1) => emit_from env fuel event data (S i) c1 h1
    | Some (Raised e, c1, h1) =>
        if is_Exception e then
          match print env (error_line e) c1 h1 with
          | (Returned _, c2, h2) => emit_from env fuel event data (S i) c2 h2
          | (Raised e', c2, h2) => Some (Raised e', c2, h2)
          end
        else Some (Raised e, c1, h1)
    end.
Proof. intros Hlist Hitem. cbn [emit_from]. now rewrite Hlist, Hitem. Qed.

(** The loop is over when the position is past the end of the list. *)
Lemma emit_from_end env fuel event data i callbacks c h :
  _event_callbacks c !! event = Some callbacks ->
  callbacks !! i = None ->
  emit_from env fuel event data i c h = Some (Returned tt, c, h).
Proof. intros Hlist Hitem. destruct fuel; cbn [emit_from]; now rewrite Hlist, Hitem. Qed.

Lemma emit_from_out_of_fuel env event data i callbacks callback c h :
  _event_callbacks c !! event = Some callbacks ->
  callbacks !! i = Some callback ->
  emit_from env 0 event data i c h = None.
Proof. intros Hlist Hitem. cbn [emit_from]. now rewrite Hlist, Hitem. Qed.

Lemma emit_is_emit_from env fuel event data c h :
  emit env fuel event data c h = emit_from env fuel event data 0 c h.
Proof.
  unfold emit. destruct (_event_callbacks c !! event) eqn:Hlist; [reflexivity |].
  destruct fuel; cbn [emit_from]; now rewrite Hlist.
Qed.

(** *** More fuel, same result *)






(** *** Orderly callbacks *)

Lemma orderly_turn env event data callback callbacks i c h fuel :
  orderly env event data callback ->
  _event_callbacks c !! event = Some callbacks ->
  callbacks !! i = Some callback ->
  exists c' turn,
    emit_from env (S fuel) event data i c h
    = emit_from env fuel event data (S i) c' (h ++ turn) /\
    _event_callbacks c' !! event = Some callbacks /\
    invoked turn = [(callback, data)] /\
    printed turn = error_line <$> callback_errors turn.
Proof.
  intros Horderly Hlist Hitem.
  rewrite (emit_from_turn env fuel event data i callbacks callback) by assumption.
  unfold invoke.
  destruct (Horderly fuel c h) as (outcome & c' & inner & Hrun & Hkept & Hinv & Hpr & Hexn).
  rewrite Hrun. destruct outcome as [v | e].
  - exists c', (inner ++ [Called (callback_call callback data) (Returned v)]).
    rewrite app_assoc. split; [reflexivity |]. split; [congruence |].
    rewrite invoked_app, printed_app, callback_errors_app, Hinv, Hpr.
    rewrite (invoked_none_errors inner Hinv). split; reflexivity.
  - destruct (Hexn e eq_refl) as [Hclass Hprint]. rewrite Hclass.
    unfold print. rewrite Hprint.
    exists c', (inner ++ [Called (callback_call callback data) (Raised e);
                         Printed (error_line e)]).
    split; [now rewrite <- !app_assoc |]. split; [congruence |].
    rewrite invoked_app, printed_app, callback_errors_app, Hinv, Hpr.
    rewrite (invoked_none_errors inner Hinv). split; reflexivity.
Qed.

(** The loop across a stretch of orderly callbacks. *)
Lemma emit_from_orderly env event data stretch : forall passed rest c h fuel,
  _event_callbacks c !! event = Some (passed ++ stretch ++ rest) ->
  Forall (orderly env event data) stretch ->
  exists c' trace,
    emit_from env (length stretch + fuel) event data (length passed) c h
    = emit_from env fuel event data (length passed + length stretch) c' (h ++ trace) /\
    _event_callbacks c' !! event = Some (passed ++ stretch ++ rest) /\
    invoked trace = (fun callback => (callback, data)) <$> stretch /\
    printed trace = error_line <$> callback_errors trace.
Proof.
  induction stretch as [| callback stretch IH]; intros passed rest c h fuel Hlist Horderly.
  - exists c, []. rewrite app_nil_r, Nat.add_0_r. repeat split. exact Hlist.
  - apply Forall_cons in Horderly as [Hcallback Horderly].
    destruct (orderly_turn env event data callback _ (length passed) c h
                (length stretch + fuel) Hcallback Hlist)
      as (c1 & turn & Hturn & Hlist1 & Hinv1 & Hpr1).
    { now rewrite lookup_app_r, Nat.sub_diag by lia. }
    destruct (IH (passed ++ [callback]) rest c1 (h ++ turn) fuel) as
      (c2 & trace & Hrest & Hlist2 & Hinv2 & Hpr2); [| assumption |].
    { now rewrite <- app_assoc. }
    rewrite length_app in Hrest. cbn [length] in Hrest.
    rewrite Nat.add_1_r in Hrest. rewrite <- app_assoc in Hlist2. cbn in Hlist2.
    exists c2, (turn ++ trace). cbn [length]. rewrite Nat.add_succ_l, Hturn, Hrest.
    split; [now rewrite app_assoc, Nat.add_succ_r |]. split; [exact Hlist2 |].
    rewrite invoked_app, printed_app, callback_errors_app, fmap_app.
    rewrite Hinv1, Hinv2, Hpr1, Hpr2. split; reflexivity.
Qed.


Lemma finish_orderly env event data callback outcome :
  (forall h, subscriber env callback data h = Finish outcome) ->
  (forall e, outcome = Raised e ->
     is_Exception e = true /\ forall h', print_raises env h' (error_line e) = None) ->
  orderly env event data callback.
Proof.
  intros Hscript Hexn fuel c h. exists outcome, c, [].
  rewrite Hscript, app_nil_r. do 4 (split; [reflexivity |]). exact Hexn.
Qed.










(** * Further properties of the client *)

(** ** Session life cycle *)

Lemma connect_runs env private_key c h :
  connect env private_key c h
  = match from_key env private_key with
    | inl msg => (Raised (EnterL2Error ("Failed to connect: " +:+ msg)), c, h)
    | inr account =>
        let answer := respond env h (provider_set_account (Some account)) in
        (match answer with
         | Returned _ => Returned tt
         | Raised e =>
             if is_Exception e
             then Raised (EnterL2Error ("Failed to connect: " +:+ exn_str e))
             else Raised e
         end,
         set_account (Some account) c,
         h ++ [Called (provider_set_account (Some account)) answer])
    end.
Proof.
  unfold connect, try_except, bind, Account_from_key, modify, call, ret, raise.
  destruct (from_key env private_key) as [msg | account]; [reflexivity |]. cbn.
  destruct (respond env h (provider_set_account (Some account))) as [v | e];
    [reflexivity |].
  now destruct (is_Exception e).
Qed.

Lemma set_account_None_id c : _account c = None -> set_account None c = c.
Proof. destruct c as [cfg acc reg]. cbn. now intros ->. Qed.

Lemma is_connected_false_account c : is_connected c = false -> _account c = None.
Proof. unfold is_connected. now destruct (_account c). Qed.

(** X1. [connect] followed by [disconnect] is a round trip on the client: a
    client without a session is back exactly as it was, whatever the key was
    and whatever [connect], [disconnect] and the provider did in between. *)
Theorem connect_then_disconnect_restores (env : Env) (private_key : string) c h h' :
  is_connected c = false ->
  client_after (disconnect env (client_after (connect env private_key c h)) h') = c.
Proof.
  intros Hoff. apply is_connected_false_account in Hoff.
  rewrite disconnect_runs, connect_runs. unfold client_after.
  destruct (from_key env private_key) as [msg | account]; cbn [fst snd].
  - now apply set_account_None_id.
  - destruct c as [cfg acc reg]. cbn in *. now subst acc.
Qed.

Lemma connect_then_disconnect_restores_witness :
  is_connected subscribed_client = false /\
  client_after (disconnect unreachable
                  (client_after (connect unreachable alice_key subscribed_client [])) [])
  = subscribed_client.
Proof.
  split; [reflexivity |].
  apply (connect_then_disconnect_restores unreachable alice_key subscribed_client [] []).
  reflexivity.
Defined.



(** X3. [connect] has no guard of its own: on any client, in session or
    not, a well-formed key that the provider takes becomes the session.
    [is_connected] is true, [address] is the address of the new account, the
    registry and the configuration are untouched, and the one call made is
    on the provider. *)
Theorem connect_binds_new_account (env : Env) (private_key : string)
    (account : LocalAccount.t) (answer : PyVal) c h :
  from_key env private_key = inr account ->
  respond env h (provider_set_account (Some account)) = Returned answer ->
  let r := connect env private_key c h in
  outcome_of r = Returned tt /\
  is_connected (client_after r) = true /\
  address (client_after r) = PyStr (LocalAccount.address account) /\
  _event_callbacks (client_after r) = _event_callbacks c /\
  config (client_after r) = config c /\
  added h r = [Called (provider_set_account (Some account)) (Returned answer)].
Proof.
  intros Hkey Hanswer. cbv zeta. rewrite connect_runs, Hkey. cbv zeta.
  rewrite Hanswer, added_app. repeat split.
Qed.

Lemma connect_binds_new_account_witness :
  address bobs_client = PyStr (LocalAccount.address bob) /\
  address (client_after (connect calm alice_key bobs_client []))
  = PyStr (LocalAccount.address alice) /\
  _event_callbacks (client_after (connect calm alice_key bobs_client []))
  = _event_callbacks bobs_client.
Proof.
  split; [reflexivity |].
  pose proof (connect_binds_new_account calm alice_key alice PyNone bobs_client []
                eq_refl eq_refl) as (_ & _ & Haddress & Hregistry & _).
  split; [exact Haddress | exact Hregistry].
Defined.

(** X4. A [connect] that failed on malformed key material leaves nothing
    behind: a following [connect] with a well-formed key that the provider
    takes succeeds and gives the very client a first [connect] would have
    given. *)
Theorem connect_succeeds_after_failed_connect (env : Env) (bad good msg : string)
    (account : LocalAccount.t) (answer : PyVal) c h h' :
  from_key env bad = inl msg ->
  from_key env good = inr account ->
  respond env h' (provider_set_account (Some account)) = Returned answer ->
  connect env good (client_after (connect env bad c h)) h'
  = (Returned tt, set_account (Some account) c,
     h' ++ [Called (provider_set_account (Some account)) (Returned answer)]).
Proof.
  intros Hbad Hgood Hanswer.
  rewrite (connect_runs env bad), Hbad. unfold client_after. cbn [fst snd].
  rewrite connect_runs, Hgood. cbv zeta. now rewrite Hanswer.
Qed.

Lemma connect_succeeds_after_failed_connect_witness :
  outcome_of (connect calm "not a key" (EnterL2Client PyNone) [])
  = Raised (EnterL2Error
      "Failed to connect: The private key must be exactly 32 bytes long") /\
  connect calm alice_key
    (client_after (connect calm "not a key" (EnterL2Client PyNone) [])) []
  = (Returned tt, connected_client,
     [Called (provider_set_account (Some alice)) (Returned PyNone)]).
Proof.
  split; [reflexivity |].
  apply (connect_succeeds_after_failed_connect calm "not a key" alice_key
           "The private key must be exactly 32 bytes long" alice PyNone
           (EnterL2Client PyNone) [] []); reflexivity.
Defined.

(** ** Delegation of every method *)

(** With a session a mutating method is one call on its service; without,
    it is the refusal. *)
Lemma run_mutating_shape env op c :
  exists q,
    target q = facade_of op /\
    forall h,
      run_mutating env op c h
      = if is_connected c then call env q c h
        else (Raised (EnterL2Error "Client not connected"), c, h).
Proof.
  destruct op; cbn [run_mutating facade_of];
    unfold send_payment, deposit, withdraw, register_name, stake, unstake,
      claim_rewards, create_consumer_wallet, create_merchant_wallet; cbv zeta;
    eexists; (split; [| intros h; destruct (is_connected c) eqn:Hsession;
      [rewrite guarded_passes by assumption; unfold bind, get; reflexivity
      | now rewrite guarded_refuses by assumption]]); reflexivity.
Qed.

(** X5. No mutating method ever changes the client: refused or delegated,
    answered or raised upon, session and registry are afterwards what they
    were.  It makes at most one call, and never on anything but its own
    service (never on the provider). *)
Theorem mutating_leaves_client (env : Env) (op : Mutating) c h :
  let r := run_mutating env op c h in
  client_after r = c /\
  (targets (added h r) = [] \/ targets (added h r) = [facade_of op]) /\
  printed (added h r) = [].
Proof.
  cbv zeta. destruct (run_mutating_shape env op c) as (q & Htarget & Hshape).
  rewrite Hshape. destruct (is_connected c).
  - unfold call. rewrite added_app. cbn. rewrite Htarget. auto.
  - unfold added, history_after. cbn. rewrite drop_all. auto.
Qed.

(** X6. With a session, each of the nine mutating methods makes exactly one
    call, on its own service, and what that call answers, a value or an
    exception, is what the method answers. *)
Theorem mutating_with_session_delegates (env : Env) (op : Mutating) c h :
  is_connected c = true ->
  exists q,
    target q = facade_of op /\
    delegates_once (run_mutating env op c h) env c h q.
Proof.
  intros Hon. destruct (run_mutating_shape env op c) as (q & Htarget & Hshape).
  exists q. split; [exact Htarget |]. rewrite Hshape, Hon. apply call_delegates_once.
Qed.

Lemma mutating_with_session_delegates_witness :
  is_connected connected_client = true /\
  exists q,
    target q = the_staking /\
    delegates_once (run_mutating unreachable (do_stake (PyInt 100) None) connected_client [])
      unreachable connected_client [] q.
Proof.
  split; [reflexivity |].
  apply (mutating_with_session_delegates unreachable (do_stake (PyInt 100) None)
           connected_client []).
  reflexivity.
Defined.

(** X7. No query changes the client either, and a query calls nothing but
    the provider, at most once. *)
Theorem query_leaves_client (env : Env) (q : Query) c h :
  let r := run_query env q c h in
  client_after r = c /\
  (targets (added h r) = [] \/ targets (added h r) = [the_provider]) /\
  printed (added h r) = [].
Proof.
  cbv zeta. destruct q; cbn [run_query];
    unfold get_network_info, get_balance, get_transaction, wait_for_transaction;
    cbv zeta.
  2: { destruct (is_connected c) eqn:Hsession.
       - rewrite guarded_passes by assumption. unfold bind, get, call.
         rewrite added_app. cbn. auto.
       - rewrite guarded_refuses by assumption.
         unfold added, history_after. cbn. rewrite drop_all. auto. }
  all: unfold call; rewrite added_app; cbn; auto.
Qed.

(** X8. With a session, [get_balance] asks the provider once, for the
    balance of the session's own address (a string, never [None]) in the
    token given, [None] when no token is given, and answers what the
    provider answers. *)
Theorem get_balance_asks_for_session_address (env : Env) (token_address : option PyVal)
    (account : LocalAccount.t) c h :
  _account c = Some account ->
  delegates_once (get_balance env token_address c h) env c h
    (provider_get_balance (PyStr (LocalAccount.address account))
       (arg token_address PyNone)).
Proof.
  intros Haccount.
  assert (Hon : is_connected c = true) by (unfold is_connected; now rewrite Haccount).
  unfold get_balance. cbv zeta. rewrite guarded_passes by assumption.
  unfold bind, get, address. rewrite Haccount. apply call_delegates_once.
Qed.

Lemma get_balance_asks_for_session_address_witness :
  _account connected_client = Some alice /\
  get_balance calm None connected_client []
  = (Returned PyNone, connected_client,
     [Called (provider_get_balance (PyStr (LocalAccount.address alice)) PyNone)
             (Returned PyNone)]).
Proof.
  split; [reflexivity |].
  apply (get_balance_asks_for_session_address calm None alice connected_client []).
  reflexivity.
Defined.

(** X9. Once [disconnect] has run, every mutating method is refused, even
    when [disconnect] itself ended in an exception of the provider. *)
Theorem disconnect_then_mutating_refused (env : Env) (op : Mutating) c h h' :
  let c' := client_after (disconnect env c h) in
  run_mutating env op c' h' = (Raised (EnterL2Error "Client not connected"), c', h').
Proof.
  cbv zeta. rewrite disconnect_runs. unfold client_after. cbn [fst snd].
  destruct (run_mutating_shape env op (set_account None c)) as (q & _ & Hshape).
  now rewrite Hshape.
Qed.

(** ** Dispatch in general *)

Lemma emit_from_raises env : forall fuel event data i c h r e,
  emit_from env fuel event data i c h = Some r ->
  outcome_of r = Raised e ->
  exists callback e0,
    last (history_after r) = Some (Called (callback_call callback data) (Raised e0)) /\
    (e = e0 /\ is_Exception e = false \/
     is_Exception e0 = true /\
     print_raises env (history_after r) (error_line e0) = Some e).
Proof.
  induction fuel as [| fuel IH]; intros event data i c h r e Hrun Hraised.
  - cbn [emit_from] in Hrun.
    destruct (_event_callbacks c !! event) as [callbacks |];
      [destruct (callbacks !! i); [discriminate |] |];
      injection Hrun as <-; discriminate.
  - destruct (_event_callbacks c !! event) as [callbacks |] eqn:Hlist;
      [| cbn [emit_from] in Hrun; rewrite Hlist in Hrun; injection Hrun as <-; discriminate].
    destruct (callbacks !! i) as [callback |] eqn:Hitem;
      [| cbn [emit_from] in Hrun; rewrite Hlist, Hitem in Hrun;
         injection Hrun as <-; discriminate].
    rewrite (emit_from_turn env fuel event data i callbacks callback) in Hrun by assumption.
    unfold invoke in Hrun.
    destruct (run_script env (emit env fuel) (subscriber env callback data h) c h)
      as [[[outcome c1] h1] |]; [| discriminate].
    destruct outcome as [v | e0]; [eapply IH; eassumption |].
    destruct (is_Exception e0) eqn:Hclass.
    + unfold print in Hrun.
      destruct (print_raises env (h1 ++ [Called (callback_call callback data) (Raised e0)])
                  (error_line e0)) as [e' |] eqn:Hprint.
      * injection Hrun as <-. cbn in Hraised. injection Hraised as ->.
        exists callback, e0. unfold history_after. cbn [snd].
        split; [apply last_snoc | right; auto].
      * eapply IH; eassumption.
    + injection Hrun as <-. cbn in Hraised. injection Hraised as ->.
      exists callback, e. unfold history_after. cbn [snd].
      split; [apply last_snoc | left; auto].
Qed.

(** X11. Whatever the callbacks do, an exception that leaves [emit] is of
    one of two kinds, and the last thing recorded is the callback that
    raised: either that callback raised it and it is from outside
    [Exception], or that callback raised an [Exception], which was caught,
    and the exception was raised by [emit]'s own [print] of the report.  An
    [Exception] of a callback never leaves [emit] as such. *)
Theorem emit_raises_only_what_it_cannot_catch (env : Env) (fuel : nat) (event : string)
    (data : PyVal) c h r e :
  emit env fuel event data c h = Some r ->
  outcome_of r = Raised e ->
  exists callback e0,
    last (history_after r) = Some (Called (callback_call callback data) (Raised e0)) /\
    (e = e0 /\ is_Exception e = false \/
     is_Exception e0 = true /\
     print_raises env (history_after r) (error_line e0) = Some e).
Proof. rewrite emit_is_emit_from. apply emit_from_raises. Qed.

Lemma emit_raises_only_what_it_cannot_catch_witness :
  emit mute 5 "tx" (PyInt 7) heckled_client []
  = Some (Raised (OtherException "ValueError" "I/O operation on closed file."),
          heckled_client,
          [Called (callback_call 1 (PyInt 7)) (Raised (OtherException "ValueError" "boom"))]) /\
  exists callback e0,
    last [Called (callback_call 1 (PyInt 7)) (Raised (OtherException "ValueError" "boom"))]
    = Some (Called (callback_call callback (PyInt 7)) (Raised e0)) /\
    (OtherException "ValueError" "I/O operation on closed file." = e0 /\
     is_Exception (OtherException "ValueError" "I/O operation on closed file.") = false \/
     is_Exception e0 = true /\
     print_raises mute
       [Called (callback_call 1 (PyInt 7)) (Raised (OtherException "ValueError" "boom"))]
       (error_line e0)
     = Some (OtherException "ValueError" "I/O operation on closed file.")).
Proof.
  assert (Hrun : emit mute 5 "tx" (PyInt 7) heckled_client []
            = Some (Raised (OtherException "ValueError" "I/O operation on closed file."),
                    heckled_client,
                    [Called (callback_call 1 (PyInt 7))
                       (Raised (OtherException "ValueError" "boom"))]))
    by (vm_compute; reflexivity).
  split; [exact Hrun |].
  apply (emit_raises_only_what_it_cannot_catch mute 5 "tx" (PyInt 7) heckled_client [] _ _
           Hrun eq_refl).
Defined.

Lemma off_head event callback callbacks c h :
  _event_callbacks c !! event = Some (callback :: callbacks) ->
  exists c',
    off event callback c h = (Returned tt, c', h) /\
    _event_callbacks c' !! event = Some callbacks.
Proof.
  intros Hlist. unfold off, modify. rewrite Hlist. eexists. split; [reflexivity |].
  cbn. rewrite lookup_alter_eq, Hlist. cbn. unfold remove_callback. cbn.
  now rewrite decide_True.
Qed.

(** X10. The loop of [emit] walks the list that [off] shortens.  When the
    first callback registered for an event unsubscribes itself and returns,
    the callback registered next is passed over in that [emit]: the loop
    goes on with the one after it.  With orderly callbacks after those two,
    [emit] invokes the first and these, returns, and leaves the list without
    the first. *)
Theorem self_unsubscribing_callback_skips_next (env : Env) (event : string) (data : PyVal)
    (callback next : Callback) (rest : list Callback) (v : PyVal) c h :
  _event_callbacks c !! event = Some (callback :: next :: rest) ->
  (forall h', subscriber env callback data h'
              = Reenter (re_off event callback) (fun _ => Finish (Returned v))) ->
  Forall (orderly env event data) rest ->
  forall fuel, S (length rest) <= fuel ->
    exists c' trace,
      emit env fuel event data c h = Some (Returned tt, c', h ++ trace) /\
      invoked trace = (callback, data) :: ((fun later => (later, data)) <$> rest) /\
      entries_of c' event = next :: rest.
Proof.
  intros Hlist Hscript Horderly fuel Hfuel.
  replace fuel with (S (length rest + (fuel - S (length rest)))) by lia.
  rewrite emit_is_emit_from.
  rewrite (emit_from_turn env _ event data 0 _ callback c h Hlist eq_refl).
  unfold invoke. rewrite Hscript. cbn [run_script reenter].
  destruct (off_head event callback (next :: rest) c h Hlist) as (c1 & Hoff & Hlist1).
  rewrite Hoff.
  destruct (emit_from_orderly env event data rest [next] [] c1
              (h ++ [Called (callback_call callback data) (Returned v)])
              (fuel - S (length rest)))
    as (c2 & trace & Hrun & Hlist2 & Hinvoked & _);
    [now rewrite app_nil_r | assumption |].
  rewrite app_nil_r in Hlist2. cbn [length app Nat.add] in Hrun, Hlist2. rewrite Hrun.
  rewrite (emit_from_end env _ event data _ (next :: rest) c2 _ Hlist2)
    by (apply lookup_ge_None; cbn; lia).
  exists c2, (Called (callback_call callback data) (Returned v) :: trace).
  split; [now rewrite <- app_assoc |]. split; [cbn; now rewrite Hinvoked |].
  unfold entries_of. now rewrite Hlist2.
Qed.

Lemma fidgety_5_orderly : Forall (orderly fidgety "tx" (PyInt 7)) [5].
Proof.
  repeat constructor.
  now apply (finish_orderly fidgety "tx" (PyInt 7) 5 (Returned PyNone)).
Qed.

Lemma self_unsubscribing_callback_skips_next_witness :
  _event_callbacks fidgety_client !! "tx" = Some [4; 3; 5] /\
  Forall (orderly fidgety "tx" (PyInt 7)) [5] /\
  exists c' trace,
    emit fidgety 2 "tx" (PyInt 7) fidgety_client [] = Some (Returned tt, c', [] ++ trace) /\
    invoked trace = [(4, PyInt 7); (5, PyInt 7)] /\
    entries_of c' "tx" = [3; 5].
Proof.
  split; [reflexivity |]. split; [exact fidgety_5_orderly |].
  apply (self_unsubscribing_callback_skips_next fidgety "tx" (PyInt 7) 4 3 [5] PyNone
           fidgety_client [] eq_refl (fun _ => eq_refl) fidgety_5_orderly 2).
  cbn. lia.
Defined.

Lemma on_tail event callback callbacks c h :
  _event_callbacks c !! event = Some callbacks ->
  exists c',
    on event callback c h = (Returned tt, c', h) /\
    _event_callbacks c' !! event = Some (callbacks ++ [callback]).
Proof.
  intros Hlist. unfold on, modify. rewrite Hlist. eexists. split; [reflexivity |].
  cbn. now rewrite lookup_alter_eq, Hlist.
Qed.

(** X22. The loop of [emit] walks the list that [on] lengthens.  When the
    only callback registered for an event registers another one for the
    same event while it runs, and returns, that other callback, if orderly,
    is invoked in the same [emit], after it. *)
Theorem callback_registered_during_emit_is_invoked (env : Env) (event : string)
    (data : PyVal) (callback late : Callback) (v : PyVal) c h :
  _event_callbacks c !! event = Some [callback] ->
  (forall h', subscriber env callback data h'
              = Reenter (re_on event late) (fun _ => Finish (Returned v))) ->
  orderly env event data late ->
  forall fuel, 2 <= fuel ->
    exists c' trace,
      emit env fuel event data c h = Some (Returned tt, c', h ++ trace) /\
      invoked trace = [(callback, data); (late, data)] /\
      entries_of c' event = [callback; late].
Proof.
  intros Hlist Hscript Horderly fuel Hfuel.
  replace fuel with (S (1 + (fuel - 2))) by lia.
  rewrite emit_is_emit_from.
  rewrite (emit_from_turn env _ event data 0 _ callback c h Hlist eq_refl).
  unfold invoke. rewrite Hscript. cbn [run_script reenter].
  destruct (on_tail event late [callback] c h Hlist) as (c1 & Hon & Hlist1).
  rewrite Hon.
  destruct (emit_from_orderly env event data [late] [callback] [] c1
              (h ++ [Called (callback_call callback data) (Returned v)]) (fuel - 2))
    as (c2 & trace & Hrun & Hlist2 & Hinvoked & _);
    [exact Hlist1 | now repeat constructor |].
  cbn [length app Nat.add] in Hrun, Hlist2. cbn [Nat.add]. rewrite Hrun.
  rewrite (emit_from_end env _ event data _ [callback; late] c2 _ Hlist2) by reflexivity.
  exists c2, (Called (callback_call callback data) (Returned v) :: trace).
  split; [now rewrite <- app_assoc |]. split; [cbn; now rewrite Hinvoked |].
  unfold entries_of. now rewrite Hlist2.
Qed.

Lemma callback_registered_during_emit_is_invoked_witness :
  _event_callbacks eager_client !! "tx" = Some [8] /\
  orderly eager "tx" (PyInt 7) 9 /\
  exists c' trace,
    emit eager 2 "tx" (PyInt 7) eager_client [] = Some (Returned tt, c', [] ++ trace) /\
    invoked trace = [(8, PyInt 7); (9, PyInt 7)] /\
    entries_of c' "tx" = [8; 9].
Proof.
  assert (Horderly : orderly eager "tx" (PyInt 7) 9)
    by now apply (finish_orderly eager "tx" (PyInt 7) 9 (Returned PyNone)).
  split; [reflexivity |]. split; [exact Horderly |].
  apply (callback_registered_during_emit_is_invoked eager "tx" (PyInt 7) 8 9 PyNone
           eager_client [] eq_refl (fun _ => eq_refl) Horderly 2).
  lia.
Defined.

(** ** The registry, call by call *)

Lemma spec_remove_first_absent callback entries :
  callback ∉ entries -> spec_remove_first callback entries = entries.
Proof.
  induction entries as [| entry entries IH]; [reflexivity |].
  intros Habsent. apply not_elem_of_cons in Habsent as [Hne Habsent]. cbn.
  case_decide; [congruence |]. now rewrite IH.
Qed.

Lemma spec_remove_first_present callback entries :
  callback ∈ entries -> (callback :: spec_remove_first callback entries) ≡ₚ entries.
Proof.
  induction entries as [| entry entries IH]; intros Hin.
  - now apply elem_of_nil in Hin.
  - cbn. case_decide as Heq; [now subst |].
    apply elem_of_cons in Hin as [-> | Hin]; [congruence |].
    rewrite Permutation_swap. now rewrite IH.
Qed.

Lemma spec_remove_first_sublist callback entries :
  spec_remove_first callback entries `sublist_of` entries.
Proof.
  induction entries as [| entry entries IH]; [constructor |]. cbn.
  case_decide; [now apply sublist_cons | now apply sublist_skip].
Qed.

Lemma set_event_callbacks_id c : set_event_callbacks (_event_callbacks c) c = c.
Proof. now destruct c. Qed.

(** X12. [off] for a callback that is not registered for the event, be it
    that the event is unknown or that its list does not hold the callback,
    changes nothing at all and does not fail. *)
Theorem off_unregistered_changes_nothing (event : string) (callback : Callback) c h :
  callback ∉ entries_of c event ->
  off event callback c h = (Returned tt, c, h).
Proof.
  intros Habsent. unfold off, modify, entries_of in *.
  destruct (_event_callbacks c !! event) as [entries |] eqn:Hentries; [| reflexivity].
  cbn in Habsent. rewrite alter_id.
  - now rewrite set_event_callbacks_id.
  - intros entries' Hlookup. assert (entries' = entries) as -> by congruence.
    rewrite remove_callback_first. now apply spec_remove_first_absent.
Qed.

Lemma off_unregistered_changes_nothing_witness :
  (7 ∉ entries_of subscribed_client "tx") /\
  off "tx" 7 subscribed_client [] = (Returned tt, subscribed_client, []) /\
  (3 ∉ entries_of subscribed_client "block") /\
  off "block" 3 subscribed_client [] = (Returned tt, subscribed_client, []).
Proof.
  assert (H7 : 7 ∉ entries_of subscribed_client "tx").
  { intros Hin. apply list_elem_of_In in Hin. vm_compute in Hin. intuition discriminate. }
  assert (H3 : 3 ∉ entries_of subscribed_client "block").
  { intros Hin. apply list_elem_of_In in Hin. vm_compute in Hin. exact Hin. }
  split; [exact H7 |]. split.
  - apply (off_unregistered_changes_nothing "tx" 7 subscribed_client [] H7).
  - split; [exact H3 |].
    apply (off_unregistered_changes_nothing "block" 3 subscribed_client [] H3).
Defined.

(** X13. [off] for a registered callback takes out one entry of it and no
    more: the event's list is afterwards the old list less one occurrence of
    the callback, the entries that stay keep their order, the event keeps
    its list even when that is now empty, and the lists of other events are
    untouched. *)
Theorem off_removes_one_entry (event : string) (callback : Callback) c h :
  callback ∈ entries_of c event ->
  let c' := client_after (off event callback c h) in
  (callback :: entries_of c' event) ≡ₚ entries_of c event /\
  entries_of c' event `sublist_of` entries_of c event /\
  is_Some (_event_callbacks c' !! event) /\
  forall other, other ≠ event -> entries_of c' other = entries_of c other.
Proof.
  intros Hin. cbv zeta.
  destruct (off_removes_first event callback event c h) as (c' & Hrun & _ & Hstep).
  rewrite Hrun. unfold client_after. cbn [fst snd].
  rewrite Hstep. cbn. rewrite decide_True by reflexivity.
  split; [now apply spec_remove_first_present |].
  split; [apply spec_remove_first_sublist |]. split.
  - unfold off, modify, entries_of in *.
    destruct (_event_callbacks c !! event) as [entries |] eqn:Hentries.
    + injection Hrun as <-. cbn. rewrite lookup_alter_eq, Hentries. now eexists.
    + cbn in Hin. now apply elem_of_nil in Hin.
  - intros other Hother.
    destruct (off_removes_first event callback other c h) as (c'' & Hrun' & _ & Hstep').
    assert (c'' = c') as -> by congruence.
    rewrite Hstep'. cbn. now rewrite decide_False.
Qed.

Lemma off_removes_one_entry_witness :
  let c := client_after (run_registrations [reg_on "tx" 1; reg_on "tx" 3; reg_on "tx" 1]
                           (EnterL2Client PyNone) []) in
  1 ∈ entries_of c "tx" /\
  entries_of c "tx" = [1; 3; 1] /\
  entries_of (client_after (off "tx" 1 c [])) "tx" = [3; 1] /\
  (1 :: entries_of (client_after (off "tx" 1 c [])) "tx") ≡ₚ entries_of c "tx".
Proof.
  cbv zeta.
  assert (Hin : 1 ∈ entries_of
                  (client_after (run_registrations
                                   [reg_on "tx" 1; reg_on "tx" 3; reg_on "tx" 1]
                                   (EnterL2Client PyNone) [])) "tx").
  { apply list_elem_of_In. vm_compute. auto. }
  split; [exact Hin |]. split; [reflexivity |]. split; [reflexivity |].
  apply (off_removes_one_entry "tx" 1 _ [] Hin).
Defined.

Lemma on_registers env_h event callback c :
  _event_callbacks (client_after (on event callback c env_h)) !! event
  = Some (entries_of c event ++ [callback]).
Proof.
  unfold on, modify, client_after, entries_of. cbn. rewrite lookup_alter_eq.
  destruct (_event_callbacks c !! event) as [entries |] eqn:Hentries.
  - now rewrite Hentries.
  - now rewrite lookup_insert_eq.
Qed.

Lemma off_lookup event callback c h :
  _event_callbacks (client_after (off event callback c h)) !! event
  = remove_callback callback <$> _event_callbacks c !! event.
Proof.
  unfold off, modify, client_after. cbn.
  destruct (_event_callbacks c !! event) as [entries |] eqn:Hentries; cbn.
  - now rewrite lookup_alter_eq, Hentries.
  - now rewrite Hentries.
Qed.

(** X14. [on] followed by [off] of the same callback for the same event
    leaves the event with the entries it had, up to their order, and in the
    very order when the callback was not registered before; when it was,
    [off] takes out the older entry, not the one just added.  The event is
    afterwards a key of the registry even if it was not before. *)
Theorem on_then_off (event : string) (callback : Callback) c h :
  let c1 := client_after (on event callback c h) in
  let c2 := client_after (off event callback c1 h) in
  entries_of c2 event ≡ₚ entries_of c event /\
  entries_of c2 event = spec_remove_first callback (entries_of c event ++ [callback]) /\
  (callback ∉ entries_of c event -> entries_of c2 event = entries_of c event) /\
  _event_callbacks c2 !! event = Some (entries_of c2 event).
Proof.
  cbv zeta.
  assert (Hc2 : _event_callbacks
                  (client_after (off event callback
                                   (client_after (on event callback c h)) h)) !! event
                = Some (spec_remove_first callback (entries_of c event ++ [callback]))).
  { rewrite off_lookup, on_registers. cbn. now rewrite remove_callback_first. }
  assert (Hentries : entries_of
                       (client_after (off event callback
                                        (client_after (on event callback c h)) h)) event
                     = spec_remove_first callback (entries_of c event ++ [callback])).
  { unfold entries_of at 1. now rewrite Hc2. }
  rewrite Hentries. split; [| split; [reflexivity | split]].
  - apply (Permutation_cons_inv (a := callback)).
    rewrite spec_remove_first_present by (apply elem_of_app; right; apply list_elem_of_here).
    symmetry. apply Permutation_cons_append.
  - intros Habsent. clear -Habsent.
    induction (entries_of c event) as [| entry entries IH]; cbn.
    + now rewrite decide_True.
    + apply not_elem_of_cons in Habsent as [Hne Habsent].
      rewrite decide_False by congruence. now rewrite IH.
  - exact Hc2.
Qed.

Lemma spec_registered_from_other entries calls event :
  Forall (fun r => event_of r ≠ event) calls ->
  spec_registered_from entries calls event = entries.
Proof.
  unfold spec_registered_from. intros Hother. revert entries.
  induction Hother as [| r calls Hr _ IH]; intros entries; [reflexivity |].
  cbn. rewrite <- (IH entries) at 2. f_equal.
  destruct r; cbn in *; now rewrite decide_False.
Qed.

(** X15. Registrations are local.  A sequence of [on] and [off] calls never
    fails, calls nothing, leaves the session alone, and leaves alone the
    entries of every event that none of the calls names. *)
Theorem registrations_are_local (calls : list Registration) (event : string) c h :
  Forall (fun r => event_of r ≠ event) calls ->
  let r := run_registrations calls c h in
  outcome_of r = Returned tt /\
  history_after r = h /\
  _account (client_after r) = _account c /\
  entries_of (client_after r) event = entries_of c event.
Proof.
  intros Hother. cbv zeta.
  destruct (run_registrations_entries calls c h) as (c' & Hrun & Hacc & Hentries).
  rewrite Hrun. unfold outcome_of, history_after, client_after. cbn.
  repeat split; [exact Hacc |].
  rewrite Hentries. now apply spec_registered_from_other.
Qed.

Lemma registrations_are_local_witness :
  let calls := [reg_on "block" 5; reg_off "tx" 3; reg_on "tx" 8; reg_off "fee" 1] in
  Forall (fun r => event_of r ≠ "mint") calls /\
  entries_of (client_after (run_registrations calls bobs_client [])) "mint"
  = entries_of bobs_client "mint" /\
  _account (client_after (run_registrations calls bobs_client [])) = Some bob.
Proof.
  cbv zeta.
  assert (Hother : Forall (fun r => event_of r ≠ "mint")
                     [reg_on "block" 5; reg_off "tx" 3; reg_on "tx" 8; reg_off "fee" 1])
    by (repeat constructor; discriminate).
  split; [exact Hother |].
  pose proof (registrations_are_local _ "mint" bobs_client [] Hother)
    as (_ & _ & Hacc & Hentries).
  split; [exact Hentries | exact Hacc].
Defined.

Lemma on_then_off_witness :
  let c := client_after (run_registrations [reg_on "tx" 1; reg_on "tx" 3]
                           (EnterL2Client PyNone) []) in
  entries_of c "tx" = [1; 3] /\
  entries_of (client_after (off "tx" 1 (client_after (on "tx" 1 c [])) [])) "tx" = [3; 1] /\
  entries_of (client_after (off "tx" 1 (client_after (on "tx" 1 c [])) [])) "tx"
  ≡ₚ entries_of c "tx".
Proof.
  cbv zeta. split; [reflexivity |]. split; [reflexivity |].
  apply (on_then_off "tx" 1 _ []).
Defined.

(** ** Closing and the session *)

(** X16. [close] does not end the session: whether the provider's [close]
    returns or raises, the account, and with it [is_connected] and
    [address], are what they were, and the only call made is
    [provider.close()] (the provider is not told to drop the account). *)
Theorem close_keeps_session (env : Env) c h :
  let r := close env c h in
  _account (client_after r) = _account c /\
  is_connected (client_after r) = is_connected c /\
  address (client_after r) = address c /\
  config (client_after r) = config c /\
  added h r = [Called provider_close (respond env h provider_close)].
Proof.
  cbv zeta. rewrite close_runs.
  destruct (respond env h provider_close) as [v | e];
    rewrite added_app; repeat split.
Qed.

(** X17. After a [close] that the provider let through, no callback is left
    to dispatch to: [emit] of any event returns at once and does nothing,
    until [on] is called again. *)
Theorem close_then_emit_is_silent (env : Env) (fuel : nat) (event : string)
    (data : PyVal) c h h' :
  (exists answer, respond env h provider_close = Returned answer) ->
  let c' := client_after (close env c h) in
  entries_of c' event = [] /\
  emit env fuel event data c' h' = Some (Returned tt, c', h').
Proof.
  intros [answer Hanswer]. cbv zeta. rewrite close_runs, Hanswer.
  unfold client_after. cbn [fst snd].
  assert (Hnone : entries_of (set_event_callbacks ∅ c) event = [])
    by (unfold entries_of; cbn; now rewrite lookup_empty).
  split; [exact Hnone |]. unfold emit. cbn. now rewrite lookup_empty.
Qed.

Lemma close_then_emit_is_silent_witness :
  (exists answer, respond rowdy [] provider_close = Returned answer) /\
  entries_of heckled_client "tx" = [1; 3] /\
  emit rowdy 0 "tx" (PyInt 7) (client_after (close rowdy heckled_client [])) []
  = Some (Returned tt, client_after (close rowdy heckled_client []), []).
Proof.
  assert (Hreturns : exists answer, respond rowdy [] provider_close = Returned answer)
    by now exists PyNone.
  split; [exact Hreturns |]. split; [reflexivity |].
  apply (close_then_emit_is_silent rowdy 0 "tx" (PyInt 7) heckled_client [] [] Hreturns).
Defined.

(** X18. How [async with] ends.  When [close] raises on the way out, that
    exception is the outcome, in place of the block's value or exception;
    when [close] returns, the block's own value or exception is the
    outcome.  An exception of the block is never swallowed. *)
Theorem async_with_outcome (env : Env) (A : Type) (suite : M A) c h :
  let block := suite c h in
  let closing := close env (client_after block) (history_after block) in
  outcome_of (async_with env suite c h)
  = match outcome_of closing with
    | Raised e' => Raised e'
    | Returned _ =>
        match outcome_of block with
        | Returned a => Returned (Some a)
        | Raised e => Raised e
        end
    end.
Proof.
  cbv zeta. unfold async_with, bind, __aenter__, get.
  destruct (suite c h) as [[[a | e] c1] h1];
    unfold client_after, history_after, outcome_of; cbn [fst snd];
    rewrite aexit_is_close;
    now destruct (close env c1 h1) as [[[[] | e'] c2] h2].
Qed.

(** * setup.py: reading the requirements *)

Lemma lstrip_split s :
  exists indent,
    s = indent ++ setup_py.lstrip s /\
    Forall (fun ch => setup_py.isspace ch = true) indent.
Proof.
  induction s as [| ch s IH]; [now exists [] |]. cbn.
  destruct (setup_py.isspace ch) eqn:Hspace.
  - destruct IH as (indent & Hs & Hindent). exists (ch :: indent).
    split; [cbn; now rewrite <- Hs | now constructor].
  - now exists [].
Qed.

Lemma lstrip_head s ch :
  head (setup_py.lstrip s) = Some ch -> setup_py.isspace ch = false.
Proof.
  induction s as [| ch' s IH]; [discriminate |]. cbn.
  destruct (setup_py.isspace ch') eqn:Hspace; [exact IH |].
  cbn. now intros [= <-].
Qed.

Lemma lstrip_fixed s :
  (forall ch, head s = Some ch -> setup_py.isspace ch = false) ->
  setup_py.lstrip s = s.
Proof.
  destruct s as [| ch s]; [reflexivity |]. intros Hhead. cbn.
  now rewrite (Hhead ch eq_refl).
Qed.

Lemma lstrip_blank s :
  Forall (fun ch => setup_py.isspace ch = true) s -> setup_py.lstrip s = [].
Proof. induction 1 as [| ch s Hch _ IH]; [reflexivity |]. cbn. now rewrite Hch. Qed.

Lemma last_rev (s : setup_py.str) : last (rev s) = head s.
Proof. destruct s as [| ch s]; [reflexivity |]. cbn. apply last_snoc. Qed.

Lemma head_rev (s : setup_py.str) : head (rev s) = last s.
Proof. rewrite <- (rev_involutive s) at 2. now rewrite last_rev. Qed.

Lemma rstrip_split s :
  exists trail,
    s = setup_py.rstrip s ++ trail /\
    Forall (fun ch => setup_py.isspace ch = true) trail.
Proof.
  unfold setup_py.rstrip. destruct (lstrip_split (rev s)) as (indent & Hs & Hindent).
  exists (rev indent). split.
  - rewrite <- rev_app_distr, <- Hs. now rewrite rev_involutive.
  - apply Forall_forall. intros ch Hin. apply list_elem_of_In, in_rev in Hin.
    rewrite Forall_forall in Hindent. apply Hindent. now apply list_elem_of_In.
Qed.

Lemma rstrip_last s ch :
  last (setup_py.rstrip s) = Some ch -> setup_py.isspace ch = false.
Proof. unfold setup_py.rstrip. rewrite last_rev. apply lstrip_head. Qed.

(** A [str] that begins with a character other than whitespace keeps its
    beginning under [rstrip]. *)
Lemma rstrip_keeps_head s ch :
  head s = Some ch -> setup_py.isspace ch = false ->
  head (setup_py.rstrip s) = Some ch.
Proof.
  intros Hhead Hch. destruct (rstrip_split s) as (trail & Hs & Htrail).
  destruct (setup_py.rstrip s) as [| ch' kept].
  - cbn in Hs. subst s. destruct trail as [| ch' trail]; [discriminate |].
    injection Hhead as ->. inversion Htrail; congruence.
  - rewrite Hs in Hhead. exact Hhead.
Qed.

Lemma strip_ends s :
  (forall ch, head (setup_py.strip s) = Some ch -> setup_py.isspace ch = false) /\
  (forall ch, last (setup_py.strip s) = Some ch -> setup_py.isspace ch = false).
Proof.
  unfold setup_py.strip. split; [| apply rstrip_last].
  intros ch Hhead. destruct (rstrip_split (setup_py.lstrip s)) as (trail & Hs & _).
  apply (lstrip_head s). rewrite Hs.
  destruct (setup_py.rstrip (setup_py.lstrip s)); [discriminate | exact Hhead].
Qed.

Lemma strip_fixed s :
  (forall ch, head s = Some ch -> setup_py.isspace ch = false) ->
  (forall ch, last s = Some ch -> setup_py.isspace ch = false) ->
  setup_py.strip s = s.
Proof.
  intros Hhead Hlast. unfold setup_py.strip, setup_py.rstrip.
  rewrite (lstrip_fixed s Hhead), lstrip_fixed; [apply rev_involutive |].
  intros ch. rewrite head_rev. apply Hlast.
Qed.

Lemma requirements_elem r fh :
  r ∈ setup_py.requirements fh <->
  exists line, line ∈ fh /\ setup_py.kept line = true /\ r = setup_py.strip line.
Proof.
  induction fh as [| line fh IH]; cbn.
  - split; [intros Hin; now apply elem_of_nil in Hin |].
    intros (line & Hin & _). now apply elem_of_nil in Hin.
  - destruct (setup_py.kept line) eqn:Hkept.
    + rewrite elem_of_cons, IH. split.
      * intros [-> | (line' & Hin & Hk & ->)].
        -- exists line. split; [left | auto].
        -- exists line'. split; [now right | auto].
      * intros (line' & Hin & Hk & ->). apply elem_of_cons in Hin as [-> | Hin]; [now left |].
        right. now exists line'.
    + rewrite IH. split.
      * intros (line' & Hin & Hk & ->). exists line'. split; [now right | auto].
      * intros (line' & Hin & Hk & ->). apply elem_of_cons in Hin as [-> | Hin]; [congruence |].
        now exists line'.
Qed.

(** X19. Every entry of the requirements list is a line of the file with
    the whitespace at both ends taken off: it is not empty, neither begins
    nor ends with whitespace (stripping it again changes nothing), and the
    line it comes from does not begin with ["#"]. *)
Theorem requirements_are_stripped_lines (fh : list setup_py.str) (r : setup_py.str) :
  r ∈ setup_py.requirements fh ->
  r ≠ [] /\
  (forall ch, head r = Some ch -> setup_py.isspace ch = false) /\
  (forall ch, last r = Some ch -> setup_py.isspace ch = false) /\
  setup_py.strip r = r /\
  exists line,
    line ∈ fh /\ r = setup_py.strip line /\
    setup_py.startswith line setup_py.hash = false.
Proof.
  intros Hin. apply requirements_elem in Hin as (line & Hline & Hkept & ->).
  destruct (strip_ends line) as [Hhead Hlast].
  unfold setup_py.kept in Hkept.
  split; [| split; [exact Hhead | split; [exact Hlast | split]]].
  - intros Hempty. now rewrite Hempty in Hkept.
  - now apply strip_fixed.
  - exists line. split; [exact Hline |]. split; [reflexivity |].
    destruct (setup_py.strip line); [discriminate |].
    now apply negb_true_iff in Hkept.
Qed.

Lemma requirements_are_stripped_lines_witness :
  setup_py.requirements sample_requirements
  = [setup_py.text "web3>=6.0.0"; setup_py.text "# pinned for CI";
     setup_py.text "eth-account>=0.8.0"] /\
  setup_py.strip (setup_py.text "eth-account>=0.8.0") = setup_py.text "eth-account>=0.8.0".
Proof.
  split; [vm_compute; reflexivity |].
  apply (requirements_are_stripped_lines sample_requirements
           (setup_py.text "eth-account>=0.8.0")).
  vm_compute. apply list_elem_of_In. cbn. auto.
Defined.

Lemma lstrip_indent indent s :
  Forall (fun ch => setup_py.isspace ch = true) indent ->
  setup_py.lstrip (indent ++ s) = setup_py.lstrip s.
Proof. induction 1 as [| ch indent Hch _ IH]; [reflexivity |]. cbn. now rewrite Hch. Qed.

(** X20. Only a ["#"] in the first column makes a line a comment.  A
    comment that is indented is kept: the line passes the test, and its
    text from the ["#"] on becomes an entry of the requirements list. *)
Theorem indented_comment_becomes_requirement (fh : list setup_py.str)
    (indent rest : setup_py.str) :
  indent ≠ [] ->
  Forall (fun ch => setup_py.isspace ch = true) indent ->
  (indent ++ setup_py.hash ++ rest) ∈ fh ->
  setup_py.strip (indent ++ setup_py.hash ++ rest) ∈ setup_py.requirements fh /\
  setup_py.startswith (setup_py.strip (indent ++ setup_py.hash ++ rest)) setup_py.hash
  = true.
Proof.
  intros Hindented Hindent Hin.
  assert (Hhead : head (setup_py.strip (indent ++ setup_py.hash ++ rest)) = Some 35%N).
  { unfold setup_py.strip. rewrite lstrip_indent by assumption.
    change (setup_py.lstrip (setup_py.hash ++ rest)) with (35%N :: rest).
    now apply rstrip_keeps_head. }
  split.
  - apply requirements_elem. exists (indent ++ setup_py.hash ++ rest).
    split; [exact Hin |]. split; [| reflexivity].
    unfold setup_py.kept.
    destruct (setup_py.strip (indent ++ setup_py.hash ++ rest)); [discriminate |].
    destruct indent as [| ch indent]; [congruence |].
    inversion Hindent as [| ? ? Hch _]; subst. cbn.
    destruct (N.eqb_spec ch 35) as [-> | _]; [discriminate | reflexivity].
  - destruct (setup_py.strip (indent ++ setup_py.hash ++ rest)) as [| ch s];
      [discriminate |].
    injection Hhead as ->. reflexivity.
Qed.

Lemma indented_comment_becomes_requirement_witness :
  setup_py.text "    " ≠ [] /\
  Forall (fun ch => setup_py.isspace ch = true) (setup_py.text "    ") /\
  setup_py.text "# pinned for CI" ∈ setup_py.requirements sample_requirements.
Proof.
  assert (Hne : setup_py.text "    " ≠ []) by discriminate.
  assert (Hsp : Forall (fun ch => setup_py.isspace ch = true) (setup_py.text "    "))
    by (repeat constructor).
  split; [exact Hne |]. split; [exact Hsp |].
  apply (indented_comment_becomes_requirement sample_requirements
           (setup_py.text "    ")
           (setup_py.text " pinned for CI" ++ setup_py.newline) Hne Hsp).
  apply list_elem_of_In. vm_compute. auto 6.
Defined.

Lemma requirements_app fh1 fh2 :
  setup_py.requirements (fh1 ++ fh2)
  = setup_py.requirements fh1 ++ setup_py.requirements fh2.
Proof.
  induction fh1 as [| line fh1 IH]; [reflexivity |]. cbn.
  destruct (setup_py.kept line); cbn; now rewrite IH.
Qed.

(** X21. A line that begins with ["#"] and a line of nothing but whitespace
    (an empty line too) add nothing: the requirements list is the same with
    or without such a line, wherever in the file it stands. *)
Theorem comment_and_blank_lines_are_dropped (before after : list setup_py.str)
    (line : setup_py.str) :
  setup_py.startswith line setup_py.hash = true \/
  Forall (fun ch => setup_py.isspace ch = true) line ->
  setup_py.requirements (before ++ line :: after)
  = setup_py.requirements (before ++ after).
Proof.
  intros Hdropped. rewrite !requirements_app. f_equal. cbn.
  assert (Hkept : setup_py.kept line = false); [| now rewrite Hkept].
  unfold setup_py.kept. destruct Hdropped as [Hcomment | Hblank].
  - rewrite Hcomment. now destruct (setup_py.strip line).
  - unfold setup_py.strip. now rewrite lstrip_blank.
Qed.

Lemma comment_and_blank_lines_are_dropped_witness :
  setup_py.startswith (setup_py.text "# Core dependencies" ++ setup_py.newline)
    setup_py.hash = true /\
  setup_py.requirements sample_requirements
  = setup_py.requirements (tail sample_requirements).
Proof.
  split; [reflexivity |].
  apply (comment_and_blank_lines_are_dropped []
           (tail sample_requirements)
           (setup_py.text "# Core dependencies" ++ setup_py.newline)).
  left. reflexivity.
Defined.
